(** * MapValue web scraper: crawl, extract, filter, merge

    A shallow embedding of [web_scraping/notebooks/web_scraping.ipynb]:
    [get_property_links], [extract_property_data], [scrape_website] and the
    incremental-merge cell, together with the parts of Python [str],
    BeautifulSoup and pandas those functions rely on.

    Conventions.
    - A Python [str] is a [string]; a character is a code point below 256.
    - A parsed document is a tree of [BS4.node]s; an element handle carries
      the nodes that follow it in document order, which is what
      [find_next] walks.
    - A [dict] with string keys and string values is a [gmap string string];
      a DataFrame is the list of its rows, each row such a dict.
    - Network access and [sleep] are effects: they are recorded in a trace
      threaded through the computation, and a Python exception ends it. *)

From Stdlib Require Import ZArith.
From Stdlib Require DecimalString.
From Stdlib Require DecimalZ.
From stdpp Require Import base strings gmap list.

Local Open Scope Z_scope.
Set Warnings "-register-all,-clear-no-such-hyp".

(** ** Python strings *)

Module Py.

(** [s.startswith(p)] *)
Fixpoint startswith (p s : string) : bool :=
  match p, s with
  | "", _ => true
  | String _ _, "" => false
  | String a p', String b s' => if decide (a = b) then startswith p' s' else false
  end.

(** [sub in s] *)
Fixpoint contains (sub s : string) : bool :=
  startswith sub s ||
  match s with
  | "" => false
  | String _ s' => contains sub s'
  end.

(** The offsets at which [sub] occurs in [s], counted from [i]. *)
Fixpoint occurrences_from (i : nat) (sub s : string) : list nat :=
  (if startswith sub s then [i] else []) ++
  match s with
  | "" => []
  | String _ s' => occurrences_from (S i) sub s'
  end.

Definition occurrences : string → string → list nat := occurrences_from 0.

(** [c.isspace()] for a code point below 256. *)
Definition isspace (c : Stdlib.Strings.Ascii.ascii) : bool :=
  let n := Stdlib.Strings.Ascii.N_of_ascii c in
  ((9 <=? n) && (n <=? 13) || (28 <=? n) && (n <=? 32)
   || (n =? 133) || (n =? 160))%N.

Fixpoint lstrip (s : string) : string :=
  match s with
  | "" => ""
  | String c s' => if isspace c then lstrip s' else s
  end.

Definition rstrip (s : string) : string := String.rev (lstrip (String.rev s)).

(** [s.strip()] *)
Definition strip (s : string) : string := rstrip (lstrip s).

(** [str(n)] for an [int] *)
Definition str (n : Z) : string :=
  DecimalString.NilZero.string_of_int (Z.to_int n).

(** [range(lo, hi)] *)
Definition range (lo hi : Z) : list Z :=
  (λ i : nat, lo + Z.of_nat i) <$> seq 0 (Z.to_nat (hi - lo)).

(** [any(f(x) for x in l)] *)
Definition any {A} (f : A → bool) (l : list A) : bool := existsb f l.

End Py.

(** ** The document tree of BeautifulSoup *)

Module BS4.

(** A node is a string or a tag with its attributes, each attribute
    given by its text in the page. *)
Inductive node :=
| NavigableString (s : string)
| Tag (name : string) (attrs : gmap string string) (contents : list node).

(** A node followed by all the nodes below it, in document order. *)
Fixpoint self_and_descendants (n : node) : list node :=
  n :: match n with
       | NavigableString _ => []
       | Tag _ _ cs => flat_map self_and_descendants cs
       end.

Definition descendants (n : node) : list node := tail (self_and_descendants n).

(** A handle on a node of a document: the node and [next_elements]. *)
Record element := Element { el_node : node; next_elements : list node }.

(** [BeautifulSoup(content, "html.parser")]: the handle on the root. *)
Definition BeautifulSoup (root : node) : element := Element root (descendants root).

(** [tag.text] *)
Fixpoint get_text (n : node) : string :=
  match n with
  | NavigableString s => s
  | Tag _ _ cs => String.concat "" (get_text <$> cs)
  end.

Definition text (e : element) : string := get_text (el_node e).

(** [tag.string]: the single string below a chain of only children. *)
Fixpoint node_string (n : node) : option string :=
  match n with
  | NavigableString s => Some s
  | Tag _ _ [c] => node_string c
  | Tag _ _ _ => None
  end.

Definition attrs_of (n : node) : gmap string string :=
  match n with
  | NavigableString _ => ∅
  | Tag _ a _ => a
  end.

(** Search criteria. *)
Definition is_tag (name : string) (n : node) : bool :=
  match n with
  | NavigableString _ => false
  | Tag nm _ _ => bool_decide (nm = name)
  end.

(** [class] is multi-valued: the parser splits it at white space, and a
    search value matches one of the tokens or all of them joined. Any
    other attribute is compared as it stands. *)
Definition value_matches (attr against v : string) : bool :=
  if bool_decide (attr = "class") then
    let tokens := String.words v in
    bool_decide (against ∈ tokens) || bool_decide (String.concat " " tokens = against)
  else bool_decide (v = against).

(** [name, {attr: against}] and [name, class_=against] *)
Definition tag_with_attr (name attr against : string) (n : node) : bool :=
  is_tag name n &&
  match attrs_of n !! attr with
  | Some v => value_matches attr against v
  | None => false
  end.

(** [name, text=label] *)
Definition tag_with_text (name label : string) (n : node) : bool :=
  is_tag name n && bool_decide (node_string n = Some label).

(** The first of the next [k] nodes of [l] that satisfies [p]. *)
Fixpoint find_within (p : node → bool) (k : nat) (l : list node) : option element :=
  match k, l with
  | S k', n :: l' => if p n then Some (Element n l') else find_within p k' l'
  | _, _ => None
  end.

Fixpoint find_all_within (p : node → bool) (k : nat) (l : list node) : list element :=
  match k, l with
  | S k', n :: l' =>
      (if p n then [Element n l'] else []) ++ find_all_within p k' l'
  | _, _ => []
  end.

(** [e.find(...)] and [e.find_all(...)] search below [e]. *)
Definition find (e : element) (p : node → bool) : option element :=
  find_within p (length (descendants (el_node e))) (next_elements e).

Definition find_all (e : element) (p : node → bool) : list element :=
  find_all_within p (length (descendants (el_node e))) (next_elements e).

(** [e.find_next(...)] searches everything after [e] in the document. *)
Definition find_next (e : element) (p : node → bool) : option element :=
  find_within p (length (next_elements e)) (next_elements e).

End BS4.

(** ** Effects: the request trace and exceptions *)

Inductive event :=
| Get (url : string)        (* [requests.get(url)] *)
| Sleep (seconds : Z).      (* [sleep(seconds)] *)

Inductive exn :=
| ConnectionError           (* [requests.get] raised, whichever its exception *)
| AttributeError            (* [None.text] *)
| KeyError (key : string)   (* [d[key]] with [key] absent *)
| TypeError.                (* [s in x] where [x] is a missing cell *)

Inductive result (A : Type) :=
| Ok (a : A)
| Raise (e : exn).
Arguments Ok {A} a.
Arguments Raise {A} e.

(** A computation reads the trace so far and returns its outcome and the
    extended trace. *)
Definition M (A : Type) : Type := list event → result A * list event.

Definition ret {A} (a : A) : M A := λ tr, (Ok a, tr).

Definition raise {A} (e : exn) : M A := λ tr, (Raise e, tr).

Definition bind {A B} (m : M A) (k : A → M B) : M B :=
  λ tr, match m tr with
        | (Ok a, tr') => k a tr'
        | (Raise e, tr') => (Raise e, tr')
        end.

Notation "x <- m ;; k" := (bind m (λ x, k))
  (at level 100, m at next level, right associativity).
Notation "m ;;; k" := (bind m (λ _, k))
  (at level 100, right associativity).

Definition emit (ev : event) : M unit := λ tr, (Ok tt, tr ++ [ev]).

Definition sleep (seconds : Z) : M unit := emit (Sleep seconds).

(** [d[key]] on a dict. *)
Definition getitem {V} (d : gmap string V) (key : string) : M V :=
  match d !! key with
  | Some v => ret v
  | None => raise (KeyError key)
  end.

(** [x.text] where [x] may be [None]. *)
Definition dot_text (x : option BS4.element) : M string :=
  match x with
  | Some e => ret (BS4.text e)
  | None => raise AttributeError
  end.

(** ** Site configuration

    The entry of one website in [config.json], with the keys the notebook
    reads. *)

Record Labels := {
  price_aria_label : string;        (* [labels["price"]["aria_label"]] *)
  area_text_label : string;         (* [labels["area"]["text_label"]] *)
  bedrooms_text_label : string;     (* [labels["bedrooms"]["text_label"]] *)
  bathrooms_text_label : string;    (* [labels["bathrooms"]["text_label"]] *)
  location_aria_label : string;     (* [labels["location"]["aria_label"]] *)
}.

Record Config := {
  BASE_DOMAIN : string;
  BASE_PATH : string;
  LISTING_DIV_CLASS : string;
  FIELDS : Labels;
  NEIGHBORHOODS : list string;
}.

(** A row of a DataFrame, and the dict [data] of one listing. *)
Abbreviation row := (gmap string string).

(** ** The scraping functions *)

Section Scraper.

(** The sites as they stand during the run: the parsed content served at
    a URL, or nothing when the request fails. *)
Variable web : string → option BS4.node.

(** [requests.get(url)] followed by [BeautifulSoup(response.content, ...)] *)
Definition requests_get (url : string) : M BS4.element :=
  emit (Get url) ;;;
  match web url with
  | Some root => ret (BS4.BeautifulSoup root)
  | None => raise ConnectionError
  end.

(** [[div.find("a")["href"] for div in listing_divs if div.find("a")]] *)
Fixpoint hrefs (listing_divs : list BS4.element) : M (list string) :=
  match listing_divs with
  | [] => ret []
  | div :: rest =>
      match BS4.find div (BS4.is_tag "a") with
      | Some a =>
          href <- getitem (BS4.attrs_of (BS4.el_node a)) "href" ;;
          links <- hrefs rest ;;
          ret (href :: links)
      | None => hrefs rest
      end
  end.

Definition get_property_links (base_url : string) (page_num : Z)
    (listing_div_class : string) : M (list string) :=
  let url := base_url +:+ Py.str page_num in
  soup <- requests_get url ;;
  let listing_divs :=
    BS4.find_all soup (BS4.tag_with_attr "div" "class" listing_div_class) in
  links <- hrefs listing_divs ;;
  ret links.

(** [elem.text.strip() if elem else "N/A"] *)
Definition text_or_NA (elem : option BS4.element) : string :=
  match elem with
  | Some e => Py.strip (BS4.text e)
  | None => "N/A"
  end.

(** [label.find_next("span").text.strip() if label else "N/A"] *)
Definition next_span_text_or_NA (label : option BS4.element) : M string :=
  match label with
  | Some l =>
      t <- dot_text (BS4.find_next l (BS4.is_tag "span")) ;;
      ret (Py.strip t)
  | None => ret "N/A"
  end.

(** The block under [# Ensure the location is in Alexandria]. *)
Definition ensure_in_alexandria (neighborhoods : list string) (location : string)
    : string :=
  if Py.any (λ neighborhood, Py.contains neighborhood location) neighborhoods then
    if negb (Py.contains "Alexandria" location) then location +:+ ", Alexandria"
    else location
  else "N/A".

Definition extract_property_data (url base_domain : string) (labels : Labels)
    (neighborhoods : list string) : M row :=
  let full_url := base_domain +:+ url in
  soup <- requests_get full_url ;;
  let data : row := ∅ in
  (* price *)
  let price_elem :=
    BS4.find soup (BS4.tag_with_attr "span" "aria-label" (price_aria_label labels)) in
  let data := <["price" := text_or_NA price_elem]> data in
  (* area *)
  let area_label :=
    BS4.find soup (BS4.tag_with_text "span" (area_text_label labels)) in
  area <- next_span_text_or_NA area_label ;;
  let data := <["area" := area]> data in
  (* bedrooms *)
  let bedrooms_label :=
    BS4.find soup (BS4.tag_with_text "span" (bedrooms_text_label labels)) in
  bedrooms <- next_span_text_or_NA bedrooms_label ;;
  let data := <["bedrooms" := bedrooms]> data in
  (* bathrooms *)
  let bathrooms_label :=
    BS4.find soup (BS4.tag_with_text "span" (bathrooms_text_label labels)) in
  bathrooms <- next_span_text_or_NA bathrooms_label ;;
  let data := <["bathrooms" := bathrooms]> data in
  (* location *)
  let location_elem :=
    BS4.find soup (BS4.tag_with_attr "span" "aria-label" (location_aria_label labels)) in
  let location := text_or_NA location_elem in
  let location := ensure_in_alexandria neighborhoods location in
  let data := <["location" := location]> data in
  ret data.

(** The first loop of [scrape_website]: [pages] are the page numbers still
    to visit, [all_links] the links collected so far. *)
Fixpoint collect_links (config : Config) (pages : list Z) (all_links : list string)
    : M (list string) :=
  match pages with
  | [] => ret all_links
  | page :: rest =>
      let base_url := BASE_DOMAIN config +:+ BASE_PATH config in
      links <- get_property_links base_url page (LISTING_DIV_CLASS config) ;;
      match links with
      | [] => ret all_links                       (* break *)
      | _ :: _ =>
          let all_links := all_links ++ links in  (* extend *)
          sleep 1 ;;;
          collect_links config rest all_links
      end
  end.

(** The second loop: [listings] are the accepted records so far. *)
Fixpoint collect_listings (config : Config) (links : list string) (listings : list row)
    : M (list row) :=
  match links with
  | [] => ret listings
  | link :: rest =>
      data <- extract_property_data link (BASE_DOMAIN config) (FIELDS config)
                (NEIGHBORHOODS config) ;;
      location <- getitem data "location" ;;
      let listings :=
        if bool_decide (location ≠ "N/A") then listings ++ [data] else listings in
      sleep 1 ;;;
      collect_listings config rest listings
  end.

Definition scrape_website (config : Config) (max_pages : Z) : M (list row) :=
  all_links <- collect_links config (Py.range 1 (max_pages + 1)) [] ;;
  listings <- collect_listings config all_links [] ;;
  ret listings.

End Scraper.

(** ** The incremental-merge cell *)

(** [lambda x: x if "Alexandria" in x else x + ", Alexandria"] *)
Definition normalize_location (x : string) : string :=
  if Py.contains "Alexandria" x then x else x +:+ ", Alexandria".

(** The columns of a frame built from dicts: every key of every row. A
    row without a key of the frame has a missing cell there. *)
Definition columns (df : list row) : gset string := ⋃ (dom <$> df).

(** [df["location"].apply(f)], row by row; [f] is applied to each cell. *)
Fixpoint apply_cells (f : string → string) (df : list row) : result (list row) :=
  match df with
  | [] => Ok []
  | r :: df' =>
      match r !! "location" with
      | None => Raise TypeError
      | Some x =>
          match apply_cells f df' with
          | Ok df'' => Ok (<["location" := f x]> r :: df'')
          | Raise e => Raise e
          end
      end
  end.

(** [df["location"] = df["location"].apply(f)] *)
Definition apply_location (f : string → string) (df : list row) : result (list row) :=
  if bool_decide ("location" ∈ columns df) then apply_cells f df
  else Raise (KeyError "location").

(** The columns of [subset=[...]] and the key they give a row; a missing
    cell is [None]. *)
Definition subset : list string :=
  ["price"; "area"; "bedrooms"; "bathrooms"; "location"].

Definition subset_key (r : row) : list (option string) := (λ c, r !! c) <$> subset.
Arguments subset_key : simpl never.

(** [keep="first"]: a row is dropped when a row before it has the same key;
    [seen] are the keys met so far. *)
Fixpoint drop_duplicates_from (seen : list (list (option string))) (df : list row)
    : list row :=
  match df with
  | [] => []
  | r :: df' =>
      if decide (subset_key r ∈ seen) then drop_duplicates_from seen df'
      else r :: drop_duplicates_from (subset_key r :: seen) df'
  end.

Definition keep_first : list row → list row := drop_duplicates_from [].

(** [df.drop_duplicates(subset=..., keep="first")]; a column of [subset]
    that the frame lacks is a [KeyError]. *)
Definition drop_duplicates (df : list row) : result (list row) :=
  match filter (λ c, c ∉ columns df) subset with
  | [] => Ok (keep_first df)
  | c :: _ => Raise (KeyError c)
  end.

(** [pd.concat([a, b])] *)
Definition pd_concat (dfs : list (list row)) : list row := concat dfs.

(** [df.empty]: no rows or no columns. *)
Definition empty (df : list row) : bool :=
  bool_decide (df = []) || bool_decide (columns df = ∅).

(** The branch under [# Check for new entries by comparing with existing data]. *)
Definition merge (existing_data_df new_data_df : list row) : result (list row) :=
  if negb (empty existing_data_df) then
    drop_duplicates (pd_concat [existing_data_df; new_data_df])
  else
    Ok new_data_df.

(** ** The other cells of the notebook *)

(** The loop of the main scraping cell and of the incremental cell:
    [for website_name, website_config in config["websites"].items()], each
    site scraped with the default [max_pages=40]; [all_data] are the frames
    appended so far. *)
Fixpoint scrape_all (web : string → option BS4.node)
    (websites : list (string * Config)) (all_data : list (list row))
    : M (list (list row)) :=
  match websites with
  | [] => ret all_data
  | (website_name, website_config) :: rest =>
      data <- scrape_website web website_config 40 ;;
      scrape_all web rest (all_data ++ [data])
  end.

(** How a cell ends: with its value, with an exception of the scraping
    functions or of a column access, or with the [ValueError] that
    [pd.concat] raises on an empty list of frames. *)
Inductive cell_result (A : Type) :=
| Completed (a : A)
| Aborted (e : exn)
| AbortedValueError.
Arguments Completed {A} a.
Arguments Aborted {A} e.
Arguments AbortedValueError {A}.

(** The incremental cell, from the frame loaded from the dataset file (the
    empty frame when there is no file) to the frame handed to [to_csv]. *)
Definition incremental_update (web : string → option BS4.node)
    (existing_data_df : list row) (websites : list (string * Config))
    : list event → cell_result (list row) * list event :=
  λ tr,
    match scrape_all web websites [] tr with
    | (Raise e, tr') => (Aborted e, tr')
    | (Ok [], tr') => (AbortedValueError, tr')
    | (Ok (data :: all_data), tr') =>
        let new_data_df := pd_concat (data :: all_data) in
        match apply_location normalize_location new_data_df with
        | Raise e => (Aborted e, tr')
        | Ok new_data_df =>
            match merge existing_data_df new_data_df with
            | Raise e => (Aborted e, tr')
            | Ok combined_df => (Completed combined_df, tr')
            end
        end
    end.

(** [df.duplicated()]: the mask of the rows equal to a row before them;
    [seen] are the rows met so far. *)
Fixpoint duplicated_from (seen : list row) (df : list row) : list bool :=
  match df with
  | [] => []
  | r :: df' =>
      if decide (r ∈ seen) then true :: duplicated_from seen df'
      else false :: duplicated_from (r :: seen) df'
  end.

Definition duplicated : list row → list bool := duplicated_from [].

(** [df[mask]] for a mask as long as the frame. *)
Fixpoint select_rows (df : list row) (mask : list bool) : list row :=
  match df, mask with
  | r :: df', b :: mask' =>
      if b then r :: select_rows df' mask' else select_rows df' mask'
  | _, _ => []
  end.

(** [df.drop_duplicates()]: the rows that [duplicated] does not mark. *)
Definition drop_duplicate_rows (df : list row) : list row :=
  select_rows df (negb <$> duplicated df).

(** The cleanup cell, from the loaded frame to the number of duplicate rows,
    the duplicate rows shown, and the cleaned frame written back. *)
Definition remove_duplicates_cell (house_pricing_data : list row)
    : nat * list row * list row :=
  let duplicates := select_rows house_pricing_data (duplicated house_pricing_data) in
  let num_duplicates := length duplicates in
  let house_pricing_data_cleaned := drop_duplicate_rows house_pricing_data in
  (num_duplicates, duplicates, house_pricing_data_cleaned).

(** ** Frames as the merge receives them

    The existing frame of the incremental cell is what [pd.read_csv]
    loaded: its columns are those of the file, and a cell is whatever value
    the loader gave it (a str, a number), not the text it was written from.
    The merge is therefore stated once more for frames with their columns
    and with cells of any type [C] that has an equality, the one
    [drop_duplicates] compares cells with; a missing cell is an absent key
    of the row. [merge] above is this merge on frames built
    from scraped dicts. *)

Section Frames.

Context {C : Type} `{EqDecision C}.

Record DataFrame := Frame {
  df_columns : list string;
  df_rows : list (gmap string C);
}.

(** The key the columns of [subset=[...]] give a row. *)
Definition cells_key (r : gmap string C) : list (option C) :=
  (λ c, r !! c) <$> subset.

(** [keep="first"] on the rows; [seen] are the keys met so far. *)
Fixpoint keep_first_from (seen : list (list (option C)))
    (rows : list (gmap string C)) : list (gmap string C) :=
  match rows with
  | [] => []
  | r :: rows' =>
      if decide (cells_key r ∈ seen) then keep_first_from seen rows'
      else r :: keep_first_from (cells_key r :: seen) rows'
  end.

(** [pd.concat([a, b])]: the columns of both, the rows of [a] then of [b]. *)
Definition frame_concat (a b : DataFrame) : DataFrame :=
  Frame (df_columns a ++ filter (λ c, c ∉ df_columns a) (df_columns b))
    (df_rows a ++ df_rows b).

(** [df.drop_duplicates(subset=..., keep="first")] *)
Definition frame_drop_duplicates (df : DataFrame) : result DataFrame :=
  match filter (λ c, c ∉ df_columns df) subset with
  | [] => Ok (Frame (df_columns df) (keep_first_from [] (df_rows df)))
  | c :: _ => Raise (KeyError c)
  end.

(** [df.empty] *)
Definition frame_empty (df : DataFrame) : bool :=
  bool_decide (df_rows df = []) || bool_decide (df_columns df = []).

(** The branch under [# Check for new entries by comparing with existing data]. *)
Definition merge_frames (existing_data_df new_data_df : DataFrame)
    : result DataFrame :=
  if negb (frame_empty existing_data_df) then
    frame_drop_duplicates (frame_concat existing_data_df new_data_df)
  else
    Ok new_data_df.

End Frames.

Arguments DataFrame C : clear implicits.
Arguments cells_key : simpl never.

(** [pd.DataFrame(listings)]: the frame of a list of dicts. *)
Definition frame_of (df : list row) : DataFrame string :=
  Frame (elements (columns df)) df.

(** ** Vocabulary of the statements *)

(** Whether the character [c] occurs in [s]. *)
Fixpoint has_char (c : Stdlib.Strings.Ascii.ascii) (s : string) : bool :=
  match s with
  | "" => false
  | String a s' => bool_decide (a = c) || has_char c s'
  end.

(** The outcome of a computation started on the empty trace. *)
Definition outcome {A} (m : M A) : result A := (m []).1.

(** The URL of listing page [j] of a site, and the links found on it. *)
Definition page_url (config : Config) (j : Z) : string :=
  (BASE_DOMAIN config +:+ BASE_PATH config) +:+ Py.str j.

Definition page_links (web : string → option BS4.node) (config : Config) (j : Z)
    : result (list string) :=
  outcome (get_property_links web (BASE_DOMAIN config +:+ BASE_PATH config) j
             (LISTING_DIV_CLASS config)).

Definition links_of (r : result (list string)) : list string :=
  match r with
  | Ok l => l
  | Raise _ => []
  end.

(** A page that was fetched and carries at least one link. *)
Definition yields_links (web : string → option BS4.node) (config : Config) (j : Z)
    : Prop :=
  ∃ l, page_links web config j = Ok l ∧ l ≠ [].

(** The links of the pages [pages], in page order. *)
Definition links_of_pages (web : string → option BS4.node) (config : Config)
    (pages : list Z) : list string :=
  concat ((λ j, links_of (page_links web config j)) <$> pages).

(** The trace of visiting [pages] when each of them carries links. *)
Definition crawl_trace (config : Config) (pages : list Z) : list event :=
  flat_map (λ j, [Get (page_url config j); Sleep 1]) pages.

(** The URLs requested in a trace, in order. *)
Definition requested (tr : list event) : list string :=
  omap (λ ev, match ev with Get url => Some url | Sleep _ => None end) tr.

(** The five fields of a listing. *)
Inductive field := price | area | bedrooms | bathrooms | location.

#[global] Instance field_eq_dec : EqDecision field.
Proof. solve_decision. Defined.

Definition field_name (f : field) : string :=
  match f with
  | price => "price"
  | area => "area"
  | bedrooms => "bedrooms"
  | bathrooms => "bathrooms"
  | location => "location"
  end.

(** The element a field's rule looks up first: the labelled span of an
    attribute rule, the span holding the label text of a text-anchor rule. *)
Definition anchor (soup : BS4.element) (labels : Labels) (f : field)
    : option BS4.element :=
  match f with
  | price =>
      BS4.find soup (BS4.tag_with_attr "span" "aria-label" (price_aria_label labels))
  | area => BS4.find soup (BS4.tag_with_text "span" (area_text_label labels))
  | bedrooms => BS4.find soup (BS4.tag_with_text "span" (bedrooms_text_label labels))
  | bathrooms => BS4.find soup (BS4.tag_with_text "span" (bathrooms_text_label labels))
  | location =>
      BS4.find soup (BS4.tag_with_attr "span" "aria-label" (location_aria_label labels))
  end.

(** The element whose text is the field's value: the labelled span itself,
    or the span that follows the text anchor. *)
Definition target (soup : BS4.element) (labels : Labels) (f : field)
    : option BS4.element :=
  match f with
  | price | location => anchor soup labels f
  | area | bedrooms | bathrooms =>
      match anchor soup labels f with
      | Some l => BS4.find_next l (BS4.is_tag "span")
      | None => None
      end
  end.

(** The value of a text-anchor field, as [extract_property_data] computes it. *)
Definition anchored_value (soup : BS4.element) (labels : Labels) (f : field)
    : result string :=
  outcome (next_span_text_or_NA (anchor soup labels f)).

(** The value a field's rule yields on a page: the stripped text of its
    target, or the sentinel when there is no target. *)
Definition field_value (soup : BS4.element) (labels : Labels) (f : field) : string :=
  text_or_NA (target soup labels f).

(** The location text before the neighbourhood check. *)
Definition raw_location (soup : BS4.element) (labels : Labels) : string :=
  text_or_NA (anchor soup labels location).

(** The record of a detail page, and the records of a list of links. *)
Definition extracted (web : string → option BS4.node) (config : Config) (link : string)
    : result row :=
  outcome (extract_property_data web link (BASE_DOMAIN config) (FIELDS config)
             (NEIGHBORHOODS config)).

Definition listings_of (web : string → option BS4.node) (config : Config)
    (links : list string) : list row :=
  omap (λ link, match extracted web config link with
                | Ok data => Some data
                | Raise _ => None
                end) links.

(** The raw location text of the detail page behind a link. *)
Definition raw_location_of (web : string → option BS4.node) (config : Config)
    (link : string) : option string :=
  (λ root, raw_location (BS4.BeautifulSoup root) (FIELDS config))
    <$> web (BASE_DOMAIN config +:+ link).

(** Whether [location] names one of the configured neighbourhoods. *)
Definition in_neighborhoods (neighborhoods : list string) (location : string) : bool :=
  Py.any (λ neighborhood, Py.contains neighborhood location) neighborhoods.

(** A row with exactly the five fields of a listing. *)
Definition is_listing (r : row) : Prop :=
  dom r = ({["price"; "area"; "bedrooms"; "bathrooms"; "location"]} : gset string).

(** The acceptance gate of [scrape_website]. *)
Definition accepted (data : row) : bool :=
  bool_decide (data !! "location" ≠ Some "N/A").

(** The trace of the detail loop over [links]. *)
Definition detail_trace (config : Config) (links : list string) : list event :=
  flat_map (λ link, [Get (BASE_DOMAIN config +:+ link); Sleep 1]) links.

(** ** A sample site

    One listing page with two listings, an empty second page, and detail
    pages in and outside the target area. *)

Definition listing (p a bd bt loc : string) : row :=
  <["location" := loc]> (<["bathrooms" := bt]> (<["bedrooms" := bd]>
    (<["area" := a]> (<["price" := p]> ∅)))).

Definition sample_villa : row :=
  listing "4,500,000 EGP" "220 m2" "4" "3" "Smouha, Alexandria".

Definition sample_flat : row :=
  listing "1,200,000 EGP" "95 m2" "2" "1" "Sidi Gaber, Alexandria".

Definition span (attrs : gmap string string) (s : string) : BS4.node :=
  BS4.Tag "span" attrs [BS4.NavigableString s].

Definition document (body : list BS4.node) : BS4.node := BS4.Tag "[document]" ∅ body.

Definition listing_div (href : string) : BS4.node :=
  BS4.Tag "div" {["class" := "listing card"]}
    [BS4.Tag "a" {["href" := href]} [BS4.NavigableString "details"]].

Definition sample_labels : Labels :=
  {| price_aria_label := "Price";
     area_text_label := "Area";
     bedrooms_text_label := "Bedrooms";
     bathrooms_text_label := "Bathrooms";
     location_aria_label := "Location" |}.

Definition sample_config : Config :=
  {| BASE_DOMAIN := "https://site.example";
     BASE_PATH := "/alexandria?page=";
     LISTING_DIV_CLASS := "listing";
     FIELDS := sample_labels;
     NEIGHBORHOODS := ["Smouha"; "Sidi Gaber"] |}.

(** A detail page with all five fields; [loc] is its location text. *)
Definition detail_page (loc : string) : BS4.node :=
  document
    [span {["aria-label" := "Price"]} " 4,500,000 EGP ";
     span ∅ "Area"; span ∅ "220 m2";
     span ∅ "Bedrooms"; span ∅ "4";
     span ∅ "Bathrooms"; span ∅ "3";
     span {["aria-label" := "Location"]} loc].

(** The same page without its price element. *)
Definition detail_page_no_price (loc : string) : BS4.node :=
  document
    [span ∅ "Area"; span ∅ "220 m2";
     span ∅ "Bedrooms"; span ∅ "4";
     span ∅ "Bathrooms"; span ∅ "3";
     span {["aria-label" := "Location"]} loc].

(** A page whose area label is the last span of the document. *)
Definition detail_page_dangling_area : BS4.node :=
  document
    [span {["aria-label" := "Price"]} "4,500,000 EGP";
     span {["aria-label" := "Location"]} "Smouha";
     span ∅ "Area"].

Definition sample_web (url : string) : option BS4.node :=
  if bool_decide (url = "https://site.example/alexandria?page=1") then
    Some (document [listing_div "/villa"; BS4.Tag "div" {["class" := "listing"]} [];
                    listing_div "/cairo"])
  else if bool_decide (url = "https://site.example/alexandria?page=2") then
    Some (document [])
  else if bool_decide (url = "https://site.example/villa") then
    Some (detail_page "Smouha")
  else if bool_decide (url = "https://site.example/cairo") then
    Some (detail_page_no_price "Maadi, Cairo")
  else if bool_decide (url = "https://site.example/dangling") then
    Some detail_page_dangling_area
  else None.

(** ** Further vocabulary and samples *)

(** The listing containers of a page, the first link element of a
    container, and its reference. *)
Definition listing_divs (soup : BS4.element) (listing_div_class : string)
    : list BS4.element :=
  BS4.find_all soup (BS4.tag_with_attr "div" "class" listing_div_class).

Definition first_anchor (div : BS4.element) : option BS4.element :=
  BS4.find div (BS4.is_tag "a").

Definition first_href (div : BS4.element) : option string :=
  match first_anchor div with
  | Some a => BS4.attrs_of (BS4.el_node a) !! "href"
  | None => None
  end.

(** A container whose first link element has no reference. *)
Definition bare (div : BS4.element) : Prop :=
  ∃ a, first_anchor div = Some a ∧ BS4.attrs_of (BS4.el_node a) !! "href" = None.

(** A record as the site batch holds it: a listing whose location is not
    the sentinel and names the target area. *)
Definition located_listing (data : row) : Prop :=
  is_listing data ∧
  ∃ loc, data !! "location" = Some loc ∧ loc ≠ "N/A"
         ∧ Py.contains "Alexandria" loc = true.

(** The sample site when only its first listing page can be reached. *)
Definition web_first_page_only (url : string) : option BS4.node :=
  if bool_decide (url = "https://site.example/alexandria?page=1") then sample_web url
  else None.

(** A site whose only listing has a link element without a reference. *)
Definition web_bare_anchor (url : string) : option BS4.node :=
  Some (document [BS4.Tag "div" {["class" := "listing"]}
                    [BS4.Tag "a" ∅ [BS4.NavigableString "details"]]]).

(** The sample site with a second listing that leads nowhere. *)
Definition web_dead_link (url : string) : option BS4.node :=
  if bool_decide (url = "https://site.example/alexandria?page=1") then
    Some (document [listing_div "/villa"; listing_div "/gone"; listing_div "/cairo"])
  else if bool_decide (url = "https://site.example/gone") then None
  else sample_web url.

Definition sample_config_no_neighborhoods : Config :=
  {| BASE_DOMAIN := "https://site.example";
     BASE_PATH := "/alexandria?page=";
     LISTING_DIV_CLASS := "listing";
     FIELDS := sample_labels;
     NEIGHBORHOODS := [] |}.

Definition sample_websites : list (string * Config) := [("site", sample_config)].

(** A site that the sample web does not serve. *)
Definition sample_config_down : Config :=
  {| BASE_DOMAIN := "https://down.example";
     BASE_PATH := "/alexandria?page=";
     LISTING_DIV_CLASS := "listing";
     FIELDS := sample_labels;
     NEIGHBORHOODS := ["Smouha"; "Sidi Gaber"] |}.

(** Sample cells: a str as scraped, or an integer as the loader gives a
    column of integers. *)
Inductive cell :=
| Str (s : string)
| Int (n : Z).

#[global] Instance cell_eq_dec : EqDecision cell.
Proof. solve_decision. Defined.

(** A scraped record as a row of a frame. *)
Definition scraped (r : row) : gmap string cell := Str <$> r.

(** [sample_villa] as loaded from a file whose bedrooms and bathrooms
    columns hold integers only. *)
Definition loaded_villa : gmap string cell :=
  <["bedrooms" := Int 4]> (<["bathrooms" := Int 3]> (scraped sample_villa)).

(** ** Python strings: facts *)

Section StringFacts.

Lemma app_cons a x y : String a x +:+ y = String a (x +:+ y).
Proof. reflexivity. Qed.

Lemma startswith_app p s : Py.startswith p (p +:+ s) = true.
Proof.
  induction p as [|a p IH]; [done|].
  rewrite app_cons. cbn. by rewrite decide_True.
Qed.

Lemma contains_startswith sub s : Py.startswith sub s = true → Py.contains sub s = true.
Proof. intros H. destruct s; cbn; rewrite H; done. Qed.

Lemma contains_app_r sub x y :
  Py.contains sub y = true → Py.contains sub (x +:+ y) = true.
Proof.
  intros H. induction x as [|a x IH]; [done|].
  rewrite app_cons. cbn. rewrite IH. apply orb_true_r.
Qed.

Lemma contains_cons_false sub a s :
  Py.contains sub (String a s) = false →
  Py.startswith sub (String a s) = false ∧ Py.contains sub s = false.
Proof. cbn. intros H. by apply orb_false_elim in H. Qed.

(** A prefix match that runs over a character foreign to the pattern
    already matched before it. *)
Lemma startswith_cut p x c rest :
  has_char c p = false →
  Py.startswith p (x +:+ String c rest) = true →
  Py.startswith p x = true.
Proof.
  revert p. induction x as [|a x IH]; intros [|b p] Hc H; try done.
  - change ("" +:+ String c rest) with (String c rest) in H.
    cbn in Hc, H. apply orb_false_elim in Hc as [Hb _].
    apply bool_decide_eq_false in Hb.
    destruct (decide (b = c)); done.
  - rewrite app_cons in H. cbn in Hc, H |- *. apply orb_false_elim in Hc as [_ Hc].
    destruct (decide (b = a)); [|done]. by apply IH.
Qed.

Lemma occurrences_suffixed i x :
  Py.contains "Alexandria" x = false →
  Py.occurrences_from i "Alexandria" (x +:+ ", Alexandria")
  = [(i + String.length x + 2)%nat].
Proof.
  revert i. induction x as [|a x IH]; intros i H.
  - change ("" +:+ ", Alexandria") with ", Alexandria".
    transitivity [S (S i)]; [by vm_compute|f_equal; cbn; lia].
  - apply contains_cons_false in H as [Hs Hc].
    rewrite app_cons.
    cbn [Py.occurrences_from].
    destruct (Py.startswith "Alexandria" (String a (x +:+ ", Alexandria"))) eqn:E.
    + rewrite <-app_cons in E.
      apply startswith_cut in E; [congruence|by vm_compute].
    + rewrite IH by done. cbn. f_equal. lia.
Qed.

End StringFacts.

(** ** Running the scraping functions *)

Section Runs.

Context (web : string → option BS4.node).

Lemma requests_get_run url tr :
  requests_get web url tr
  = (match web url with
     | Some root => Ok (BS4.BeautifulSoup root)
     | None => Raise ConnectionError
     end, tr ++ [Get url]).
Proof. unfold requests_get, bind, emit, ret, raise. by destruct (web url). Qed.

(** Reading the hrefs touches no trace. *)
Lemma hrefs_run divs tr : hrefs divs tr = (outcome (hrefs divs), tr).
Proof.
  unfold outcome. revert tr.
  induction divs as [|div divs IH]; intros tr; [done|].
  cbn [hrefs]. destruct (BS4.find div _) as [a|]; [|apply IH].
  unfold bind, getitem.
  destruct (BS4.attrs_of _ !! "href") as [href|]; [|done].
  unfold ret at 1 3. rewrite (IH tr). rewrite (IH []).
  by destruct (hrefs divs []) as [[links|e] tr0].
Qed.

Lemma get_property_links_run config j tr :
  get_property_links web (BASE_DOMAIN config +:+ BASE_PATH config) j
    (LISTING_DIV_CLASS config) tr
  = (page_links web config j, tr ++ [Get (page_url config j)]).
Proof.
  unfold page_links, outcome, get_property_links, bind.
  rewrite !requests_get_run. fold (page_url config j).
  destruct (web (page_url config j)) as [root|]; [|done].
  rewrite (hrefs_run _ (tr ++ _)), (hrefs_run _ ([] ++ _)).
  by destruct (outcome (hrefs _)).
Qed.

End Runs.

(** ** The page crawler *)

Section Range.

Lemma elem_of_range lo hi j : j ∈ Py.range lo hi ↔ lo ≤ j < hi.
Proof.
  unfold Py.range. rewrite list_elem_of_fmap. split.
  - intros (i & -> & Hi). apply elem_of_seq in Hi. lia.
  - intros H. exists (Z.to_nat (j - lo)). split; [lia|].
    apply elem_of_seq. lia.
Qed.

Lemma range_nil lo hi : hi ≤ lo → Py.range lo hi = [].
Proof. intros H. unfold Py.range. by replace (Z.to_nat (hi - lo)) with 0%nat by lia. Qed.

Lemma range_cons lo hi : lo < hi → Py.range lo hi = lo :: Py.range (lo + 1) hi.
Proof.
  intros H. unfold Py.range.
  replace (Z.to_nat (hi - lo)) with (S (Z.to_nat (hi - (lo + 1)))) by lia.
  cbn [seq fmap list_fmap]. f_equal; [lia|].
  rewrite <-fmap_S_seq, <-list_fmap_compose.
  apply list_fmap_ext. intros _ i _. cbn. lia.
Qed.

Lemma range_split lo k hi :
  lo ≤ k < hi → Py.range lo hi = Py.range lo k ++ k :: Py.range (k + 1) hi.
Proof.
  intros H. remember (Z.to_nat (k - lo)) as n eqn:Hn.
  revert lo H Hn. induction n as [|n IH]; intros lo H Hn.
  - assert (lo = k) as -> by lia.
    rewrite (range_nil k k) by lia. apply range_cons. lia.
  - rewrite (range_cons lo hi), (range_cons lo k) by lia.
    cbn. f_equal. apply IH; lia.
Qed.

End Range.

Section Crawler.

Context (web : string → option BS4.node) (config : Config).

Lemma links_of_pages_cons j pages :
  links_of_pages web config (j :: pages)
  = links_of (page_links web config j) ++ links_of_pages web config pages.
Proof. reflexivity. Qed.

(** While every page carries links the loop visits them all. *)
Lemma collect_links_through pages all_links tr :
  Forall (yields_links web config) pages →
  collect_links web config pages all_links tr
  = (Ok (all_links ++ links_of_pages web config pages),
     tr ++ crawl_trace config pages).
Proof.
  intros H. revert all_links tr.
  induction H as [|j pages (l & Hj & Hl) _ IH]; intros all_links tr.
  - cbn. by rewrite !app_nil_r.
  - cbn [collect_links]. unfold bind at 1. rewrite get_property_links_run, Hj.
    destruct l as [|x l]; [done|].
    unfold bind, sleep, emit. rewrite IH, links_of_pages_cons, Hj.
    cbn [links_of crawl_trace flat_map]. by rewrite <-!app_assoc.
Qed.

(** The first page without links ends the loop. *)
Lemma collect_links_break before k after all_links tr :
  Forall (yields_links web config) before →
  page_links web config k = Ok [] →
  collect_links web config (before ++ k :: after) all_links tr
  = (Ok (all_links ++ links_of_pages web config before),
     tr ++ crawl_trace config before ++ [Get (page_url config k)]).
Proof.
  intros H Hk. revert all_links tr.
  induction H as [|j pages (l & Hj & Hl) _ IH]; intros all_links tr.
  - cbn [app collect_links]. unfold bind. rewrite get_property_links_run, Hk.
    cbn. by rewrite app_nil_r.
  - cbn [app collect_links]. unfold bind at 1. rewrite get_property_links_run, Hj.
    destruct l as [|x l]; [done|].
    unfold bind, sleep, emit. rewrite IH, links_of_pages_cons, Hj.
    cbn [links_of crawl_trace flat_map]. by rewrite <-!app_assoc.
Qed.

Lemma requested_crawl_trace pages :
  requested (crawl_trace config pages) = page_url config <$> pages.
Proof. induction pages as [|j pages IH]; [done|]. cbn. by rewrite <-IH. Qed.

End Crawler.

(** C3. The link-collection loop of [scrape_website], run over pages
    [1..max_pages]: when page [k] is the first page without links, it returns
    the links of pages [1..k-1] in page order and its requests are those of
    pages [1..k], none after page [k]; when every page carries links, it
    returns the links of all [max_pages] pages. *)
Theorem crawl_stops_at_first_empty_page
    (web : string → option BS4.node) (config : Config) (max_pages : Z)
    (tr : list event) :
  (∀ k, 1 ≤ k ≤ max_pages →
     (∀ j, 1 ≤ j < k → yields_links web config j) →
     page_links web config k = Ok [] →
     ∃ tr',
       collect_links web config (Py.range 1 (max_pages + 1)) [] tr
       = (Ok (links_of_pages web config (Py.range 1 k)), tr ++ tr')
       ∧ requested tr' = page_url config <$> Py.range 1 (k + 1)) ∧
  ((∀ j, 1 ≤ j ≤ max_pages → yields_links web config j) →
     ∃ tr',
       collect_links web config (Py.range 1 (max_pages + 1)) [] tr
       = (Ok (links_of_pages web config (Py.range 1 (max_pages + 1))), tr ++ tr')
       ∧ requested tr' = page_url config <$> Py.range 1 (max_pages + 1)).
Proof.
  split.
  - intros k Hk Hbefore Hempty.
    exists (crawl_trace config (Py.range 1 k) ++ [Get (page_url config k)]). split.
    + rewrite (range_split 1 k (max_pages + 1)) by lia.
      apply collect_links_break; [|done].
      apply Forall_forall. intros j Hj%elem_of_range. by apply Hbefore.
    + unfold requested. rewrite omap_app. fold (requested (crawl_trace config (Py.range 1 k))).
      rewrite requested_crawl_trace, (range_split 1 k (k + 1)) by lia.
      rewrite (range_nil (k + 1)) by lia. by rewrite fmap_app.
  - intros Hall.
    exists (crawl_trace config (Py.range 1 (max_pages + 1))). split.
    + apply (collect_links_through web config _ []).
      apply Forall_forall. intros j Hj%elem_of_range. apply Hall. lia.
    + apply requested_crawl_trace.
Qed.

(** ** Dropping duplicates and merging *)

Section Merge.

Implicit Types (r : row) (df existing new : list row).
Implicit Types (seen : list (list (option string))).

Lemma elem_of_drop_duplicates_from seen df r :
  r ∈ drop_duplicates_from seen df → r ∈ df ∧ subset_key r ∉ seen.
Proof.
  revert seen. induction df as [|r0 df IH]; intros seen; cbn; [by intros ?%elem_of_nil|].
  case_decide as Hseen.
  - intros [??]%IH. split; [by right|done].
  - intros [->|[? Hr%not_elem_of_cons]%IH]%elem_of_cons.
    + split; [by left|done].
    + split; [by right|tauto].
Qed.

Lemma drop_duplicates_from_NoDup seen df :
  NoDup (subset_key <$> drop_duplicates_from seen df).
Proof.
  revert seen. induction df as [|r0 df IH]; intros seen; cbn; [constructor|].
  case_decide; [apply IH|].
  cbn. constructor; [|apply IH].
  intros (r & Hk & Hr)%list_elem_of_fmap.
  apply elem_of_drop_duplicates_from in Hr as [_ Hr].
  apply Hr. rewrite Hk. by left.
Qed.

Lemma drop_duplicates_from_complete seen df r :
  r ∈ df →
  subset_key r ∈ seen ∨ subset_key r ∈ subset_key <$> drop_duplicates_from seen df.
Proof.
  revert seen. induction df as [|r0 df IH]; intros seen; [by intros ?%elem_of_nil|].
  cbn. intros [->|Hr]%elem_of_cons; case_decide.
  - by left.
  - right. by left.
  - by apply IH.
  - destruct (IH (subset_key r0 :: seen) Hr) as [[->|?]%elem_of_cons|?].
    + right. by left.
    + by left.
    + right. by right.
Qed.

(** [keep="first"]: a kept row has no row with its key before it. *)
Lemma drop_duplicates_from_first seen df r :
  r ∈ drop_duplicates_from seen df →
  ∃ i : nat, df !! i = Some r ∧
    ∀ (j : nat) r0, (j < i)%nat → df !! j = Some r0 → subset_key r0 ≠ subset_key r.
Proof.
  revert seen. induction df as [|r1 df IH]; intros seen; cbn; [by intros ?%elem_of_nil|].
  case_decide as Hseen.
  - intros Hr. destruct (IH _ Hr) as (i & Hi & Hfirst).
    apply elem_of_drop_duplicates_from in Hr as [_ Hr].
    exists (S i). split; [done|]. intros [|j] r0 Hj Hr0; cbn in Hr0.
    + injection Hr0 as <-. congruence.
    + apply (Hfirst j); [lia|done].
  - intros [->|Hr]%elem_of_cons.
    + exists 0%nat. split; [done|]. intros; lia.
    + destruct (IH _ Hr) as (i & Hi & Hfirst).
      apply elem_of_drop_duplicates_from in Hr as [_ Hr].
      exists (S i). split; [done|]. intros [|j] r0 Hj Hr0; cbn in Hr0.
      * injection Hr0 as <-. intros Heq. apply Hr. rewrite Heq. by left.
      * apply (Hfirst j); [lia|done].
Qed.

(** Only the set of keys met so far matters. *)
Lemma drop_duplicates_from_ext seen1 seen2 df :
  (∀ k, k ∈ seen1 ↔ k ∈ seen2) →
  drop_duplicates_from seen1 df = drop_duplicates_from seen2 df.
Proof.
  revert seen1 seen2. induction df as [|r0 df IH]; intros seen1 seen2 Hext; [done|].
  cbn. destruct (decide (subset_key r0 ∈ seen1)) as [H1|H1],
         (decide (subset_key r0 ∈ seen2)) as [H2|H2].
  - by apply IH.
  - by apply Hext in H1.
  - by apply Hext in H2.
  - f_equal. apply IH. intros k. rewrite !elem_of_cons, Hext. tauto.
Qed.

Lemma drop_duplicates_from_app seen df1 df2 :
  drop_duplicates_from seen (df1 ++ df2)
  = drop_duplicates_from seen df1
    ++ drop_duplicates_from ((subset_key <$> df1) ++ seen) df2.
Proof.
  revert seen. induction df1 as [|r0 df1 IH]; intros seen; [done|].
  cbn. case_decide as Hseen.
  - rewrite IH. f_equal. apply drop_duplicates_from_ext.
    intros k. rewrite elem_of_cons, !elem_of_app.
    split; [tauto|]. intros [->|[?|?]]; tauto.
  - cbn. f_equal. rewrite IH. f_equal. apply drop_duplicates_from_ext.
    intros k. rewrite !elem_of_cons, !elem_of_app, elem_of_cons. tauto.
Qed.

(** Starting with keys already met amounts to filtering afterwards. *)
Lemma drop_duplicates_from_filter seen df :
  drop_duplicates_from seen df
  = filter (λ r, subset_key r ∉ seen) (keep_first df).
Proof.
  unfold keep_first. revert seen.
  induction df as [|r0 df IH]; intros seen; [done|].
  cbn [drop_duplicates_from].
  rewrite (decide_False (P := subset_key r0 ∈ [])) by apply not_elem_of_nil.
  rewrite filter_cons, (IH [subset_key r0]), list_filter_filter.
  destruct (decide (subset_key r0 ∈ seen)) as [Hseen|Hseen].
  - rewrite (decide_False (P := subset_key r0 ∉ seen)) by tauto. rewrite IH.
    apply list_filter_iff. intros r. split; [|tauto].
    intros Hr. split; [done|]. rewrite list_elem_of_singleton. congruence.
  - rewrite (decide_True (P := subset_key r0 ∉ seen)) by done. f_equal. rewrite IH.
    apply list_filter_iff. intros r. rewrite not_elem_of_cons, list_elem_of_singleton.
    tauto.
Qed.

Lemma keep_first_app df1 df2 :
  keep_first (df1 ++ df2)
  = keep_first df1
    ++ filter (λ r, subset_key r ∉ subset_key <$> df1) (keep_first df2).
Proof.
  unfold keep_first at 1 2. rewrite drop_duplicates_from_app, app_nil_r.
  by rewrite (drop_duplicates_from_filter (subset_key <$> df1)).
Qed.

(** A frame without duplicate keys is left as it is. *)
Lemma drop_duplicates_from_id seen df :
  NoDup (subset_key <$> df) →
  (∀ r, r ∈ df → subset_key r ∉ seen) →
  drop_duplicates_from seen df = df.
Proof.
  revert seen. induction df as [|r0 df IH]; intros seen Hnd Hseen; [done|].
  cbn in Hnd |- *. apply NoDup_cons in Hnd as [Hr0 Hnd].
  rewrite decide_False by (apply Hseen; by left).
  f_equal. apply IH; [done|].
  intros r Hr [Heq|?]%elem_of_cons.
  - apply Hr0. rewrite <-Heq. apply list_elem_of_fmap. eauto.
  - apply (Hseen r); [by right|done].
Qed.

Lemma elem_of_columns df c : c ∈ columns df ↔ ∃ r, r ∈ df ∧ is_Some (r !! c).
Proof.
  unfold columns. rewrite elem_of_union_list. split.
  - intros (X & (r & -> & Hr)%list_elem_of_fmap & Hc). exists r.
    by rewrite <-elem_of_dom.
  - intros (r & Hr & Hc). exists (dom r). split; [|by apply elem_of_dom].
    apply list_elem_of_fmap. by exists r.
Qed.

Lemma is_listing_lookup r c : is_listing r → c ∈ subset → is_Some (r !! c).
Proof.
  unfold is_listing. intros Hr Hc. apply elem_of_dom. rewrite Hr.
  unfold subset in Hc. set_solver.
Qed.

(** A frame with a listing among its rows has every key column. *)
Lemma drop_duplicates_listing df r :
  r ∈ df → is_listing r → drop_duplicates df = Ok (keep_first df).
Proof.
  intros Hr Hl. unfold drop_duplicates.
  assert (filter (λ c, c ∉ columns df) subset = []) as ->; [|done].
  apply elem_of_nil_inv. intros c [Hout Hc]%list_elem_of_filter. apply Hout.
  apply elem_of_columns. exists r. split; [done|by apply is_listing_lookup].
Qed.

Lemma merge_nonempty existing new :
  existing ≠ [] → Forall is_listing existing →
  merge existing new = Ok (keep_first (existing ++ new)).
Proof.
  intros Hne Hl. destruct existing as [|r existing]; [done|].
  apply Forall_cons in Hl as [Hr _].
  assert (empty (r :: existing) = false) as Hempty.
  { unfold empty. rewrite bool_decide_eq_false_2 by done.
    apply bool_decide_eq_false_2. intros Hcol.
    assert ("price" ∈ columns (r :: existing)) as Hin.
    { apply elem_of_columns. exists r. split; [by left|].
      apply is_listing_lookup; [done|]. by left. }
    rewrite Hcol in Hin. by apply not_elem_of_empty in Hin. }
  unfold merge, pd_concat. rewrite Hempty. cbn [negb concat]. rewrite app_nil_r.
  apply (drop_duplicates_listing _ r); [by left|done].
Qed.

End Merge.

Example sample_page_1 :
  page_links sample_web sample_config 1 = Ok ["/villa"; "/cairo"]
  ∧ page_links sample_web sample_config 2 = Ok []
  ∧ page_links sample_web sample_config 3 = Raise ConnectionError.
Proof. by vm_compute. Qed.

Example sample_extraction :
  extracted sample_web sample_config "/villa" = Ok sample_villa.
Proof. by vm_compute. Qed.

Example sample_scrape :
  outcome (scrape_website sample_web sample_config 40) = Ok [sample_villa].
Proof. by vm_compute. Qed.

(** ** The field extractor *)

Section Extractor.

Context (web : string → option BS4.node).

(** Looking up the span after a label touches no trace. *)
Lemma next_span_text_or_NA_run label tr :
  next_span_text_or_NA label tr = (outcome (next_span_text_or_NA label), tr).
Proof.
  unfold outcome. destruct label as [l|]; [|done].
  unfold next_span_text_or_NA, bind, dot_text.
  by destruct (BS4.find_next l _).
Qed.

Lemma anchored_value_unfold soup labels f :
  f ∈ [area; bedrooms; bathrooms] →
  anchored_value soup labels f
  = match anchor soup labels f with
    | None => Ok "N/A"
    | Some _ =>
        match target soup labels f with
        | Some e => Ok (Py.strip (BS4.text e))
        | None => Raise AttributeError
        end
    end.
Proof.
  intros Hf. unfold anchored_value, outcome, target.
  assert (f = area ∨ f = bedrooms ∨ f = bathrooms) as [->|[->| ->]]
    by (repeat (apply elem_of_cons in Hf as [->|Hf]); auto; by apply elem_of_nil in Hf);
  (destruct (anchor soup labels _) as [l|]; [|done];
   unfold next_span_text_or_NA, bind, dot_text;
   by destruct (BS4.find_next l _)).
Qed.

(** One call requests the detail page once and then only reads it. *)
Lemma extract_property_data_run url base_domain labels neighborhoods tr :
  extract_property_data web url base_domain labels neighborhoods tr
  = (match web (base_domain +:+ url) with
     | None => Raise ConnectionError
     | Some root =>
         let soup := BS4.BeautifulSoup root in
         match anchored_value soup labels area with
         | Raise e => Raise e
         | Ok a =>
             match anchored_value soup labels bedrooms with
             | Raise e => Raise e
             | Ok bd =>
                 match anchored_value soup labels bathrooms with
                 | Raise e => Raise e
                 | Ok bt =>
                     Ok (listing (text_or_NA (anchor soup labels price)) a bd bt
                           (ensure_in_alexandria neighborhoods
                              (raw_location soup labels)))
                 end
             end
         end
     end, tr ++ [Get (base_domain +:+ url)]).
Proof.
  unfold extract_property_data. unfold bind at 1. rewrite requests_get_run.
  destruct (web (base_domain +:+ url)) as [root|]; [|done].
  cbv zeta. unfold bind at 1. rewrite next_span_text_or_NA_run.
  fold (anchor (BS4.BeautifulSoup root) labels area).
  fold (anchored_value (BS4.BeautifulSoup root) labels area).
  destruct (anchored_value _ labels area) as [a|e]; [|done].
  unfold bind at 1. rewrite next_span_text_or_NA_run.
  fold (anchor (BS4.BeautifulSoup root) labels bedrooms).
  fold (anchored_value (BS4.BeautifulSoup root) labels bedrooms).
  destruct (anchored_value _ labels bedrooms) as [bd|e]; [|done].
  unfold bind at 1. rewrite next_span_text_or_NA_run.
  fold (anchor (BS4.BeautifulSoup root) labels bathrooms).
  fold (anchored_value (BS4.BeautifulSoup root) labels bathrooms).
  by destruct (anchored_value _ labels bathrooms) as [bt|e].
Qed.

Lemma extracted_unfold config link :
  extracted web config link
  = (extract_property_data web link (BASE_DOMAIN config) (FIELDS config)
       (NEIGHBORHOODS config) []).1.
Proof. reflexivity. Qed.

Lemma extract_property_data_outcome config link tr :
  extract_property_data web link (BASE_DOMAIN config) (FIELDS config)
    (NEIGHBORHOODS config) tr
  = (extracted web config link, tr ++ [Get (BASE_DOMAIN config +:+ link)]).
Proof. by rewrite extracted_unfold, !extract_property_data_run. Qed.

(** What a returned record holds. *)
Lemma extract_property_data_returns url base_domain labels neighborhoods tr data tr' :
  extract_property_data web url base_domain labels neighborhoods tr = (Ok data, tr') →
  ∃ root a bd bt,
    web (base_domain +:+ url) = Some root ∧
    anchored_value (BS4.BeautifulSoup root) labels area = Ok a ∧
    anchored_value (BS4.BeautifulSoup root) labels bedrooms = Ok bd ∧
    anchored_value (BS4.BeautifulSoup root) labels bathrooms = Ok bt ∧
    data = listing (text_or_NA (anchor (BS4.BeautifulSoup root) labels price)) a bd bt
             (ensure_in_alexandria neighborhoods
                (raw_location (BS4.BeautifulSoup root) labels)) ∧
    tr' = tr ++ [Get (base_domain +:+ url)].
Proof.
  rewrite extract_property_data_run.
  destruct (web (base_domain +:+ url)) as [root|] eqn:Hweb; [|done]. cbv zeta.
  destruct (anchored_value _ labels area) as [a|] eqn:Ha; [|done].
  destruct (anchored_value _ labels bedrooms) as [bd|] eqn:Hbd; [|done].
  destruct (anchored_value _ labels bathrooms) as [bt|] eqn:Hbt; [|done].
  intros [= <- <-]. by exists root, a, bd, bt.
Qed.

Lemma listing_lookup p a bd bt loc :
  listing p a bd bt loc !! "price" = Some p ∧
  listing p a bd bt loc !! "area" = Some a ∧
  listing p a bd bt loc !! "bedrooms" = Some bd ∧
  listing p a bd bt loc !! "bathrooms" = Some bt ∧
  listing p a bd bt loc !! "location" = Some loc.
Proof.
  unfold listing.
  repeat split; repeat (rewrite lookup_insert_ne by done); by rewrite lookup_insert_eq.
Qed.

Lemma getitem_listing_location p a bd bt loc tr :
  getitem (listing p a bd bt loc) "location" tr = (Ok loc, tr).
Proof.
  unfold getitem.
  destruct (listing_lookup p a bd bt loc) as (_ & _ & _ & _ & Hloc).
  by rewrite Hloc.
Qed.

Lemma accepted_listing p a bd bt loc :
  accepted (listing p a bd bt loc) = bool_decide (loc ≠ "N/A").
Proof.
  unfold accepted.
  destruct (listing_lookup p a bd bt loc) as (_ & _ & _ & _ & Hloc).
  rewrite Hloc. apply bool_decide_ext. split; congruence.
Qed.

Lemma listing_dom p a bd bt loc :
  dom (listing p a bd bt loc)
  = ({["price"; "area"; "bedrooms"; "bathrooms"; "location"]} : gset string).
Proof. unfold listing. rewrite !dom_insert_L, dom_empty_L. set_solver. Qed.

End Extractor.

(** ** The location filter *)

Section LocationFilter.

Implicit Types (neighborhoods : list string) (raw : string).

Lemma ensure_in_alexandria_outside neighborhoods raw :
  in_neighborhoods neighborhoods raw = false →
  ensure_in_alexandria neighborhoods raw = "N/A".
Proof. unfold in_neighborhoods, ensure_in_alexandria. by intros ->. Qed.

Lemma ensure_in_alexandria_appends neighborhoods raw :
  in_neighborhoods neighborhoods raw = true →
  Py.contains "Alexandria" raw = false →
  ensure_in_alexandria neighborhoods raw = raw +:+ ", Alexandria".
Proof. unfold in_neighborhoods, ensure_in_alexandria. by intros -> ->. Qed.

Lemma ensure_in_alexandria_keeps neighborhoods raw :
  in_neighborhoods neighborhoods raw = true →
  Py.contains "Alexandria" raw = true →
  ensure_in_alexandria neighborhoods raw = raw.
Proof. unfold in_neighborhoods, ensure_in_alexandria. by intros -> ->. Qed.

Lemma contains_suffixed raw : Py.contains "Alexandria" (raw +:+ ", Alexandria") = true.
Proof. apply contains_app_r. by vm_compute. Qed.

(** A location that passes the gate named a neighbourhood and carries the
    name of the target area. *)
Lemma ensure_in_alexandria_passed neighborhoods raw :
  ensure_in_alexandria neighborhoods raw ≠ "N/A" →
  in_neighborhoods neighborhoods raw = true ∧
  Py.contains "Alexandria" (ensure_in_alexandria neighborhoods raw) = true.
Proof.
  destruct (in_neighborhoods neighborhoods raw) eqn:Hn.
  - intros _. split; [done|].
    destruct (Py.contains "Alexandria" raw) eqn:Ha.
    + by rewrite ensure_in_alexandria_keeps.
    + rewrite ensure_in_alexandria_appends by done. apply contains_suffixed.
  - by rewrite ensure_in_alexandria_outside.
Qed.

Lemma normalize_location_fixed x :
  Py.contains "Alexandria" x = true → normalize_location x = x.
Proof. unfold normalize_location. by intros ->. Qed.

Lemma apply_cells_fixed f (df : list row) :
  (∀ data, data ∈ df → ∃ loc, data !! "location" = Some loc ∧ f loc = loc) →
  apply_cells f df = Ok df.
Proof.
  induction df as [|r df IH]; intros H; [done|].
  cbn. destruct (H r) as (loc & Hloc & Hf); [by left|].
  rewrite Hloc, IH, Hf.
  - by rewrite insert_id.
  - intros data Hdata. apply H. by right.
Qed.

(** On a frame with rows, a function that fixes every location cell
    leaves the frame as it is. *)
Lemma apply_location_fixed f (df : list row) :
  df ≠ [] →
  (∀ data, data ∈ df → ∃ loc, data !! "location" = Some loc ∧ f loc = loc) →
  apply_location f df = Ok df.
Proof.
  intros Hne H. unfold apply_location.
  rewrite bool_decide_eq_true_2; [by apply apply_cells_fixed|].
  destruct df as [|r df]; [done|].
  destruct (H r) as (loc & Hloc & _); [by left|].
  apply elem_of_columns. exists r. split; [by left|by rewrite Hloc].
Qed.

End LocationFilter.

(** ** The site orchestrator *)

Section Orchestrator.

Context (web : string → option BS4.node) (config : Config).

Lemma extracted_returns link data :
  extracted web config link = Ok data →
  ∃ root p a bd bt,
    web (BASE_DOMAIN config +:+ link) = Some root ∧
    data = listing p a bd bt
             (ensure_in_alexandria (NEIGHBORHOODS config)
                (raw_location (BS4.BeautifulSoup root) (FIELDS config))).
Proof.
  intros H.
  pose proof (extract_property_data_outcome web config link []) as Hrun.
  rewrite H in Hrun.
  apply extract_property_data_returns in Hrun
    as (root & a & bd & bt & Hweb & _ & _ & _ & -> & _).
  by exists root, (text_or_NA (anchor (BS4.BeautifulSoup root) (FIELDS config) price)),
    a, bd, bt.
Qed.

Lemma listings_of_cons link links data :
  extracted web config link = Ok data →
  listings_of web config (link :: links) = data :: listings_of web config links.
Proof. intros H. unfold listings_of. cbn. by rewrite H. Qed.

Lemma elem_of_listings_of links data :
  data ∈ listings_of web config links
  ↔ ∃ link, link ∈ links ∧ extracted web config link = Ok data.
Proof.
  unfold listings_of. rewrite list_elem_of_omap. split.
  - intros (link & Hlink & H). exists link. split; [done|].
    destruct (extracted web config link); congruence.
  - intros (link & Hlink & H). exists link. split; [done|]. by rewrite H.
Qed.

(** The detail loop keeps the records that pass the gate, in link order. *)
Lemma collect_listings_run links listings tr :
  (∀ link, link ∈ links → ∃ data, extracted web config link = Ok data) →
  collect_listings web config links listings tr
  = (Ok (listings ++ filter accepted (listings_of web config links)),
     tr ++ detail_trace config links).
Proof.
  revert listings tr. induction links as [|link links IH]; intros listings tr H.
  - cbn. by rewrite !app_nil_r.
  - destruct (H link) as [data Hdata]; [by left|].
    cbn [collect_listings]. unfold bind at 1.
    rewrite extract_property_data_outcome, Hdata.
    rewrite (listings_of_cons _ _ _ Hdata), filter_cons.
    apply extracted_returns in Hdata as (root & p & a & bd & bt & _ & ->).
    set (loc := ensure_in_alexandria (NEIGHBORHOODS config)
                  (raw_location (BS4.BeautifulSoup root) (FIELDS config))).
    unfold bind at 1. rewrite getitem_listing_location.
    unfold bind, sleep, emit.
    rewrite IH by (intros l Hl; apply H; by right).
    rewrite accepted_listing.
    cbn [detail_trace flat_map]. rewrite <-!app_assoc. cbn [app].
    f_equal. f_equal.
    destruct (decide (loc = "N/A")) as [E|E].
    + rewrite bool_decide_eq_false_2 by tauto.
      by rewrite decide_False by (cbn; tauto).
    + rewrite bool_decide_eq_true_2 by done.
      rewrite decide_True by done.
      by rewrite <-app_assoc.
Qed.

Lemma scrape_website_run max_pages tr links tr1 :
  collect_links web config (Py.range 1 (max_pages + 1)) [] tr = (Ok links, tr1) →
  (∀ link, link ∈ links → ∃ data, extracted web config link = Ok data) →
  scrape_website web config max_pages tr
  = (Ok (filter accepted (listings_of web config links)),
     tr1 ++ detail_trace config links).
Proof.
  intros Hlinks H. unfold scrape_website. unfold bind at 1. rewrite Hlinks.
  unfold bind. by rewrite (collect_listings_run links [] tr1 H).
Qed.

Lemma elem_of_batch links data :
  data ∈ filter accepted (listings_of web config links)
  ↔ ∃ link, link ∈ links ∧ extracted web config link = Ok data
            ∧ data !! "location" ≠ Some "N/A".
Proof.
  rewrite list_elem_of_filter, elem_of_listings_of. unfold accepted. split.
  - intros [Hacc%bool_decide_unpack (link & ? & ?)]. by exists link.
  - intros (link & ? & ? & Hloc). split; [by apply bool_decide_pack|by exists link].
Qed.

End Orchestrator.

(** ** Extraction on pages whose anchors are followed by a span *)

Section FieldFallback.

Context (web : string → option BS4.node).

Lemma anchored_value_ok soup labels g :
  g ∈ [area; bedrooms; bathrooms] →
  anchor soup labels g = None ∨ is_Some (target soup labels g) →
  anchored_value soup labels g = Ok (field_value soup labels g).
Proof.
  intros Hg H. rewrite anchored_value_unfold by done. unfold field_value.
  assert (target soup labels g
          = match anchor soup labels g with
            | Some l => BS4.find_next l (BS4.is_tag "span")
            | None => None
            end) as Ht.
  { repeat (apply elem_of_cons in Hg as [->|Hg]); try done. by apply elem_of_nil in Hg. }
  destruct H as [Hnone|[e He]].
  - by rewrite Ht, Hnone.
  - rewrite He. rewrite He in Ht. by destruct (anchor soup labels g).
Qed.

(** When every text anchor that is found has a span after it, the call
    returns, and each field holds its value. *)
Lemma extract_property_data_total url base_domain labels neighborhoods root tr :
  web (base_domain +:+ url) = Some root →
  (∀ g, g ∈ [area; bedrooms; bathrooms] →
     anchor (BS4.BeautifulSoup root) labels g = None
     ∨ is_Some (target (BS4.BeautifulSoup root) labels g)) →
  extract_property_data web url base_domain labels neighborhoods tr
  = (Ok (listing (field_value (BS4.BeautifulSoup root) labels price)
           (field_value (BS4.BeautifulSoup root) labels area)
           (field_value (BS4.BeautifulSoup root) labels bedrooms)
           (field_value (BS4.BeautifulSoup root) labels bathrooms)
           (ensure_in_alexandria neighborhoods
              (raw_location (BS4.BeautifulSoup root) labels))),
     tr ++ [Get (base_domain +:+ url)]).
Proof.
  intros Hweb H. rewrite extract_property_data_run, Hweb. cbv zeta.
  rewrite !anchored_value_ok; [done|..];
    first [apply H|idtac]; repeat first [by left|right].
Qed.

End FieldFallback.

(** ** Merging frames *)

Section FrameFacts.

Context {C : Type} `{EqDecision C}.

Implicit Types (r : gmap string C) (df existing new : list (gmap string C)).
Implicit Types (seen : list (list (option C))).

Lemma elem_of_keep_first_from seen df r :
  r ∈ keep_first_from seen df → r ∈ df ∧ cells_key r ∉ seen.
Proof.
  revert seen. induction df as [|r0 df IH]; intros seen; cbn; [by intros ?%elem_of_nil|].
  case_decide as Hseen.
  - intros [??]%IH. split; [by right|done].
  - intros [->|[? Hr%not_elem_of_cons]%IH]%elem_of_cons.
    + split; [by left|done].
    + split; [by right|tauto].
Qed.

Lemma keep_first_from_NoDup seen df :
  NoDup (cells_key <$> keep_first_from seen df).
Proof.
  revert seen. induction df as [|r0 df IH]; intros seen; cbn; [constructor|].
  case_decide; [apply IH|].
  cbn. constructor; [|apply IH].
  intros (r & Hk & Hr)%list_elem_of_fmap.
  apply elem_of_keep_first_from in Hr as [_ Hr].
  apply Hr. rewrite Hk. by left.
Qed.

Lemma keep_first_from_complete seen df r :
  r ∈ df →
  cells_key r ∈ seen ∨ cells_key r ∈ cells_key <$> keep_first_from seen df.
Proof.
  revert seen. induction df as [|r0 df IH]; intros seen; [by intros ?%elem_of_nil|].
  cbn. intros [->|Hr]%elem_of_cons; case_decide.
  - by left.
  - right. by left.
  - by apply IH.
  - destruct (IH (cells_key r0 :: seen) Hr) as [[->|?]%elem_of_cons|?].
    + right. by left.
    + by left.
    + right. by right.
Qed.

(** [keep="first"]: a kept row has no row with its key before it. *)
Lemma keep_first_from_first seen df r :
  r ∈ keep_first_from seen df →
  ∃ i : nat, df !! i = Some r ∧
    ∀ (j : nat) r0, (j < i)%nat → df !! j = Some r0 → cells_key r0 ≠ cells_key r.
Proof.
  revert seen. induction df as [|r1 df IH]; intros seen; cbn; [by intros ?%elem_of_nil|].
  case_decide as Hseen.
  - intros Hr. destruct (IH _ Hr) as (i & Hi & Hfirst).
    apply elem_of_keep_first_from in Hr as [_ Hr].
    exists (S i). split; [done|]. intros [|j] r0 Hj Hr0; cbn in Hr0.
    + injection Hr0 as <-. congruence.
    + apply (Hfirst j); [lia|done].
  - intros [->|Hr]%elem_of_cons.
    + exists 0%nat. split; [done|]. intros; lia.
    + destruct (IH _ Hr) as (i & Hi & Hfirst).
      apply elem_of_keep_first_from in Hr as [_ Hr].
      exists (S i). split; [done|]. intros [|j] r0 Hj Hr0; cbn in Hr0.
      * injection Hr0 as <-. intros Heq. apply Hr. rewrite Heq. by left.
      * apply (Hfirst j); [lia|done].
Qed.

(** Only the set of keys met so far matters. *)
Lemma keep_first_from_ext seen1 seen2 df :
  (∀ k, k ∈ seen1 ↔ k ∈ seen2) →
  keep_first_from seen1 df = keep_first_from seen2 df.
Proof.
  revert seen1 seen2. induction df as [|r0 df IH]; intros seen1 seen2 Hext; [done|].
  cbn. destruct (decide (cells_key r0 ∈ seen1)) as [H1|H1],
         (decide (cells_key r0 ∈ seen2)) as [H2|H2].
  - by apply IH.
  - by apply Hext in H1.
  - by apply Hext in H2.
  - f_equal. apply IH. intros k. rewrite !elem_of_cons, Hext. tauto.
Qed.

Lemma keep_first_from_app seen df1 df2 :
  keep_first_from seen (df1 ++ df2)
  = keep_first_from seen df1
    ++ keep_first_from ((cells_key <$> df1) ++ seen) df2.
Proof.
  revert seen. induction df1 as [|r0 df1 IH]; intros seen; [done|].
  cbn. case_decide as Hseen.
  - rewrite IH. f_equal. apply keep_first_from_ext.
    intros k. rewrite elem_of_cons, !elem_of_app.
    split; [tauto|]. intros [->|[?|?]]; tauto.
  - cbn. f_equal. rewrite IH. f_equal. apply keep_first_from_ext.
    intros k. rewrite !elem_of_cons, !elem_of_app, elem_of_cons. tauto.
Qed.

(** Starting with keys already met amounts to filtering afterwards. *)
Lemma keep_first_from_filter seen df :
  keep_first_from seen df
  = filter (λ r, cells_key r ∉ seen) (keep_first_from [] df).
Proof.
  revert seen.
  induction df as [|r0 df IH]; intros seen; [done|].
  cbn [keep_first_from].
  rewrite (decide_False (P := cells_key r0 ∈ [])) by apply not_elem_of_nil.
  rewrite filter_cons, (IH [cells_key r0]), list_filter_filter.
  destruct (decide (cells_key r0 ∈ seen)) as [Hseen|Hseen].
  - rewrite (decide_False (P := cells_key r0 ∉ seen)) by tauto. rewrite IH.
    apply list_filter_iff. intros r. split; [|tauto].
    intros Hr. split; [done|]. rewrite list_elem_of_singleton. congruence.
  - rewrite (decide_True (P := cells_key r0 ∉ seen)) by done. f_equal. rewrite IH.
    apply list_filter_iff. intros r. rewrite not_elem_of_cons, list_elem_of_singleton.
    tauto.
Qed.

Lemma keep_first_from_nil_app df1 df2 :
  keep_first_from [] (df1 ++ df2)
  = keep_first_from [] df1
    ++ filter (λ r, cells_key r ∉ cells_key <$> df1) (keep_first_from [] df2).
Proof.
  rewrite keep_first_from_app, app_nil_r.
  by rewrite (keep_first_from_filter (cells_key <$> df1)).
Qed.

(** A frame without duplicate keys is left as it is. *)
Lemma keep_first_from_id seen df :
  NoDup (cells_key <$> df) →
  (∀ r, r ∈ df → cells_key r ∉ seen) →
  keep_first_from seen df = df.
Proof.
  revert seen. induction df as [|r0 df IH]; intros seen Hnd Hseen; [done|].
  cbn in Hnd |- *. apply NoDup_cons in Hnd as [Hr0 Hnd].
  rewrite decide_False by (apply Hseen; by left).
  f_equal. apply IH; [done|].
  intros r Hr [Heq|?]%elem_of_cons.
  - apply Hr0. rewrite <-Heq. apply list_elem_of_fmap. eauto.
  - apply (Hseen r); [by right|done].
Qed.

Lemma merge_frames_nonempty (existing new : DataFrame C) :
  df_rows existing ≠ [] →
  (∀ c, c ∈ subset → c ∈ df_columns existing) →
  merge_frames existing new
  = Ok (Frame (df_columns (frame_concat existing new))
          (keep_first_from [] (df_rows existing ++ df_rows new))).
Proof.
  intros Hrows Hcols.
  assert (frame_empty existing = false) as Hempty.
  { unfold frame_empty. apply orb_false_intro; apply bool_decide_eq_false_2; [done|].
    intros Hnil. specialize (Hcols "price"). rewrite Hnil in Hcols.
    apply (not_elem_of_nil "price"), Hcols. by left. }
  unfold merge_frames, frame_drop_duplicates. rewrite Hempty. cbn [negb].
  assert (filter (λ c, c ∉ df_columns (frame_concat existing new)) subset = []) as ->;
    [|done].
  apply elem_of_nil_inv. intros c [Hout Hc]%list_elem_of_filter. apply Hout.
  cbn. apply elem_of_app. left. by apply Hcols.
Qed.

End FrameFacts.

(** [merge] is [merge_frames] on the frames of the two lists of dicts. *)
Lemma merge_frames_of_rows (existing new : list row) :
  match merge_frames (frame_of existing) (frame_of new) with
  | Ok merged => Ok (df_rows merged)
  | Raise e => Raise e
  end
  = merge existing new.
Proof.
  assert (∀ rows, keep_first_from [] rows = keep_first rows) as Hkeep.
  { unfold keep_first. generalize (@nil (list (option string))).
    intros seen rows. revert seen. induction rows as [|r rows IH]; intros seen; [done|].
    cbn. change (cells_key r) with (subset_key r). rewrite !IH. done. }
  unfold merge_frames, merge, frame_empty, empty, frame_of. cbn [df_rows df_columns].
  assert (bool_decide (elements (columns existing) = [])
          = bool_decide (columns existing = ∅)) as ->.
  { apply bool_decide_ext. split.
    - intros Hel. apply leibniz_equiv. by apply elements_empty_inv.
    - intros ->. apply elements_empty. }
  destruct (bool_decide (existing = []) || bool_decide (columns existing = ∅));
    cbn [negb]; [done|].
  unfold frame_drop_duplicates, drop_duplicates, frame_concat, pd_concat.
  cbn [df_rows df_columns concat]. rewrite app_nil_r.
  assert (filter (λ c, c ∉ elements (columns existing)
                         ++ filter (λ c0, c0 ∉ elements (columns existing))
                              (elements (columns new))) subset
          = filter (λ c, c ∉ columns (existing ++ new)) subset) as ->.
  { apply list_filter_iff. intros c.
    rewrite elem_of_app, list_elem_of_filter, !elem_of_elements.
    unfold columns. rewrite fmap_app, union_list_app, elem_of_union. tauto. }
  destruct (filter _ subset); [|done]. cbn. by rewrite Hkeep.
Qed.

(** * The claims *)

(** C1, as stated, fails when there is no prior dataset: the new batch is
    then returned as it is, and a record scraped twice stays twice. *)
Lemma merge_without_prior_keeps_duplicates :
  merge [] [sample_villa; sample_villa] = Ok [sample_villa; sample_villa]
  ∧ ¬ NoDup (subset_key <$> [sample_villa; sample_villa]).
Proof.
  split; [done|].
  intros [Hdup _]%NoDup_cons. apply Hdup. by left.
Qed.

(** C1 (amended). Merging a non-empty existing frame that has the five key
    columns with a new batch leaves exactly one record per composite key of
    either frame, where two records have the same key when their five cells
    are equal as the frames hold them: no key occurs twice, every key of the
    two frames occurs, each kept record is the first one with its key in
    existing-then-new order, and so a key that the existing frame has is
    represented by a record of the existing frame. Nothing is said on
    whether a cell loaded from the dataset file equals the scraped text it
    was written from. *)
Theorem merge_keeps_first_record_per_key
    {C : Type} `{EqDecision C} (existing new : DataFrame C) :
  df_rows existing ≠ [] →
  (∀ c, c ∈ subset → c ∈ df_columns existing) →
  ∃ merged,
    merge_frames existing new = Ok merged ∧
    NoDup (cells_key <$> df_rows merged) ∧
    (∀ r, r ∈ df_rows existing ++ df_rows new →
       ∃ r', r' ∈ df_rows merged ∧ cells_key r' = cells_key r) ∧
    (∀ r', r' ∈ df_rows merged →
       ∃ i : nat, (df_rows existing ++ df_rows new) !! i = Some r' ∧
         ∀ (j : nat) r, (j < i)%nat → (df_rows existing ++ df_rows new) !! j = Some r →
           cells_key r ≠ cells_key r') ∧
    (∀ r r', r ∈ df_rows existing → r' ∈ df_rows merged →
       cells_key r' = cells_key r → r' ∈ df_rows existing).
Proof.
  intros Hne Hcols. eexists. split; [by apply merge_frames_nonempty|].
  cbn [df_rows]. repeat split.
  - apply keep_first_from_NoDup.
  - intros r Hr.
    destruct (keep_first_from_complete [] _ _ Hr) as [[]%elem_of_nil|Hk].
    apply list_elem_of_fmap in Hk as (r' & Hk & Hr'). by exists r'.
  - apply keep_first_from_first.
  - intros r r' Hr Hr' Hk. rewrite keep_first_from_nil_app in Hr'.
    apply elem_of_app in Hr' as [Hr'|Hr'].
    + by apply elem_of_keep_first_from in Hr' as [? _].
    + apply list_elem_of_filter in Hr' as [Hout _]. exfalso. apply Hout.
      rewrite Hk. apply list_elem_of_fmap. by exists r.
Qed.

Lemma merge_keeps_first_record_per_key_witness :
  df_rows (Frame subset [loaded_villa]) ≠ [] ∧
  (∀ c, c ∈ subset → c ∈ df_columns (Frame subset [loaded_villa])) ∧
  ∃ merged,
    merge_frames (Frame subset [loaded_villa])
      (Frame subset [scraped sample_flat; scraped sample_flat]) = Ok merged
    ∧ NoDup (cells_key <$> df_rows merged).
Proof.
  split; [done|]. split; [done|].
  destruct (merge_keeps_first_record_per_key (Frame subset [loaded_villa])
              (Frame subset [scraped sample_flat; scraped sample_flat]))
    as (merged & Hrun & Hnd & _); [done..|].
  by exists merged.
Defined.

(** The key of a row is made of its cells, not of their text: the villa as
    loaded, with integers for bedrooms and bathrooms, and the villa as
    scraped, with strs, have different keys, and the merge keeps both. *)
Example loaded_and_scraped_villa_differ :
  cells_key loaded_villa ≠ cells_key (scraped sample_villa)
  ∧ merge_frames (Frame subset [loaded_villa]) (Frame subset [scraped sample_villa])
    = Ok (Frame subset [loaded_villa; scraped sample_villa]).
Proof. split; by vm_compute. Qed.

(** C6. A dataset of listings without two records of the same composite
    key, merged with an empty new batch, comes back identical: same records,
    same order. *)
Theorem merge_with_empty_batch_is_identity (D : list row) :
  Forall is_listing D →
  NoDup (subset_key <$> D) →
  merge D [] = Ok D.
Proof.
  intros Hl Hnd. destruct D as [|r D]; [done|].
  rewrite merge_nonempty, app_nil_r by done. f_equal.
  apply drop_duplicates_from_id; [done|]. intros ? _. apply not_elem_of_nil.
Qed.

Lemma merge_with_empty_batch_is_identity_witness :
  Forall is_listing [sample_villa; sample_flat]
  ∧ NoDup (subset_key <$> [sample_villa; sample_flat])
  ∧ merge [sample_villa; sample_flat] [] = Ok [sample_villa; sample_flat].
Proof.
  assert (Forall is_listing [sample_villa; sample_flat]) as Hl.
  { repeat apply Forall_cons_2; [apply listing_dom..|apply Forall_nil_2]. }
  assert (NoDup (subset_key <$> [sample_villa; sample_flat])) as Hnd.
  { apply NoDup_cons. split; [|apply NoDup_singleton].
    intros Heq%list_elem_of_singleton. by vm_compute in Heq. }
  split; [done|]. split; [done|].
  by apply (merge_with_empty_batch_is_identity [sample_villa; sample_flat]).
Defined.

(** C7. Without a prior dataset the result of the merge is the new batch,
    unchanged. *)
Theorem merge_without_prior_is_new_batch (B : list row) : merge [] B = Ok B.
Proof. reflexivity. Qed.

(** C9. The second-pass normalisation of a location is idempotent, and its
    result always contains the name of the target area. *)
Theorem normalize_location_idempotent (x : string) :
  normalize_location (normalize_location x) = normalize_location x
  ∧ Py.contains "Alexandria" (normalize_location x) = true.
Proof.
  assert (Py.contains "Alexandria" (normalize_location x) = true) as H.
  { unfold normalize_location.
    destruct (Py.contains "Alexandria" x) eqn:E; [done|apply contains_suffixed]. }
  split; [|done]. by apply normalize_location_fixed.
Qed.

(** Witness of C3 on the sample site: page 2 is the first page without links
    when up to 40 pages are allowed, and with one page allowed every page
    carries links. *)
Lemma crawl_stops_at_first_empty_page_witness :
  (∃ tr',
     collect_links sample_web sample_config (Py.range 1 (40 + 1)) [] []
     = (Ok (links_of_pages sample_web sample_config (Py.range 1 2)), [] ++ tr')
     ∧ requested tr' = page_url sample_config <$> Py.range 1 (2 + 1)) ∧
  (∃ tr',
     collect_links sample_web sample_config (Py.range 1 (1 + 1)) [] []
     = (Ok (links_of_pages sample_web sample_config (Py.range 1 (1 + 1))), [] ++ tr')
     ∧ requested tr' = page_url sample_config <$> Py.range 1 (1 + 1)).
Proof.
  assert (∀ j, 1 ≤ j < 2 → yields_links sample_web sample_config j) as Hfirst.
  { intros j Hj. assert (j = 1) as -> by lia.
    exists ["/villa"; "/cairo"]. split; [by vm_compute|done]. }
  split.
  - apply (proj1 (crawl_stops_at_first_empty_page sample_web sample_config 40 []) 2);
      [lia|done|by vm_compute].
  - apply (proj2 (crawl_stops_at_first_empty_page sample_web sample_config 1 [])).
    intros j Hj. apply Hfirst. lia.
Defined.

(** C2. On a page whose area label is the last span of the document the
    label is found, no span follows it, and [extract_property_data] raises
    [AttributeError] where the claim promises the sentinel. *)
Theorem extract_raises_when_no_span_follows_label :
  is_Some (anchor (BS4.BeautifulSoup detail_page_dangling_area) sample_labels area)
  ∧ target (BS4.BeautifulSoup detail_page_dangling_area) sample_labels area = None
  ∧ extract_property_data sample_web "/dangling" "https://site.example"
      sample_labels ["Smouha"; "Sidi Gaber"] []
    = (Raise AttributeError, [Get "https://site.example/dangling"]).
Proof. split; [by eexists; vm_compute|]. split; by vm_compute. Qed.

(** C4. When the raw location names a configured neighbourhood: if it lacks
    the name of the target area, the stored location is the raw text followed
    by [", Alexandria"], in which the name occurs once, right after the raw
    text and the separator; if it already has the name, it is stored
    unchanged. *)
Theorem location_gets_target_area_once
    (web : string → option BS4.node) (url base_domain : string) (labels : Labels)
    (neighborhoods : list string) (root : BS4.node) (tr tr' : list event)
    (data : row) :
  web (base_domain +:+ url) = Some root →
  extract_property_data web url base_domain labels neighborhoods tr = (Ok data, tr') →
  in_neighborhoods neighborhoods (raw_location (BS4.BeautifulSoup root) labels) = true →
  (Py.contains "Alexandria" (raw_location (BS4.BeautifulSoup root) labels) = false →
     data !! "location"
     = Some (raw_location (BS4.BeautifulSoup root) labels +:+ ", Alexandria")
     ∧ Py.occurrences "Alexandria"
         (raw_location (BS4.BeautifulSoup root) labels +:+ ", Alexandria")
       = [(String.length (raw_location (BS4.BeautifulSoup root) labels) + 2)%nat]) ∧
  (Py.contains "Alexandria" (raw_location (BS4.BeautifulSoup root) labels) = true →
     data !! "location" = Some (raw_location (BS4.BeautifulSoup root) labels)).
Proof.
  intros Hweb Hrun Hin.
  apply extract_property_data_returns in Hrun
    as (root' & a & bd & bt & Hweb' & _ & _ & _ & -> & _).
  rewrite Hweb in Hweb'. injection Hweb' as <-.
  destruct (listing_lookup
              (text_or_NA (anchor (BS4.BeautifulSoup root) labels price)) a bd bt
              (ensure_in_alexandria neighborhoods
                 (raw_location (BS4.BeautifulSoup root) labels)))
    as (_ & _ & _ & _ & ->).
  split; intros Ha.
  - rewrite ensure_in_alexandria_appends by done. split; [done|].
    apply (occurrences_suffixed 0 _ Ha).
  - by rewrite ensure_in_alexandria_keeps.
Qed.

Lemma location_gets_target_area_once_witness :
  sample_villa !! "location" = Some ("Smouha" +:+ ", Alexandria")
  ∧ Py.occurrences "Alexandria" ("Smouha" +:+ ", Alexandria") = [(6 + 2)%nat].
Proof.
  apply (location_gets_target_area_once sample_web "/villa" "https://site.example"
           sample_labels ["Smouha"; "Sidi Gaber"] (detail_page "Smouha") []
           [Get "https://site.example/villa"] sample_villa);
    by vm_compute.
Defined.

(** C8, as stated, fails for the location: on a page that lacks only its
    price, whose location element reads "Maadi, Cairo", the location of the
    record is the sentinel, not the extracted text. *)
Lemma field_fallback_overrides_matched_location :
  target (BS4.BeautifulSoup (detail_page_no_price "Maadi, Cairo")) sample_labels price
  = None
  ∧ is_Some (target (BS4.BeautifulSoup (detail_page_no_price "Maadi, Cairo"))
               sample_labels area)
  ∧ is_Some (target (BS4.BeautifulSoup (detail_page_no_price "Maadi, Cairo"))
               sample_labels bedrooms)
  ∧ is_Some (target (BS4.BeautifulSoup (detail_page_no_price "Maadi, Cairo"))
               sample_labels bathrooms)
  ∧ field_value (BS4.BeautifulSoup (detail_page_no_price "Maadi, Cairo"))
      sample_labels location = "Maadi, Cairo"
  ∧ ∃ data,
      extract_property_data sample_web "/cairo" "https://site.example" sample_labels
        ["Smouha"; "Sidi Gaber"] []
      = (Ok data, [Get "https://site.example/cairo"])
      ∧ data !! "location" = Some "N/A"
      ∧ data !! "location" ≠ Some "Maadi, Cairo".
Proof.
  split; [by vm_compute|].
  do 3 (split; [by eexists; vm_compute|]).
  split; [by vm_compute|].
  exists (listing "N/A" "220 m2" "4" "3" "N/A").
  split; [by vm_compute|]. split; by vm_compute.
Qed.

(** C8 (amended). On a fetched page where one field's rule finds no element
    (for a text-anchor field, no label) and every other field has its value
    element, [extract_property_data] returns a record with exactly the five
    fields; the missing field, unless it is the location, holds the
    sentinel; every other field but the location holds its stripped text;
    and the location holds the outcome of the neighbourhood check on the raw
    location, which is the sentinel when the location is the missing field
    and no neighbourhood occurs in the sentinel. *)
Theorem single_missing_field_falls_back
    (web : string → option BS4.node) (url base_domain : string) (labels : Labels)
    (neighborhoods : list string) (root : BS4.node) (tr : list event) (f : field) :
  web (base_domain +:+ url) = Some root →
  anchor (BS4.BeautifulSoup root) labels f = None →
  (∀ g, g ≠ f → is_Some (target (BS4.BeautifulSoup root) labels g)) →
  ∃ data,
    extract_property_data web url base_domain labels neighborhoods tr
    = (Ok data, tr ++ [Get (base_domain +:+ url)]) ∧
    dom data = ({["price"; "area"; "bedrooms"; "bathrooms"; "location"]} : gset string) ∧
    (f ≠ location → data !! field_name f = Some "N/A") ∧
    (∀ g e, g ≠ f → g ≠ location →
       target (BS4.BeautifulSoup root) labels g = Some e →
       data !! field_name g = Some (Py.strip (BS4.text e))) ∧
    data !! "location"
    = Some (ensure_in_alexandria neighborhoods
              (raw_location (BS4.BeautifulSoup root) labels)) ∧
    (f = location → in_neighborhoods neighborhoods "N/A" = false →
       data !! "location" = Some "N/A").
Proof.
  intros Hweb Hf Hothers.
  set (soup := BS4.BeautifulSoup root) in *.
  assert (target soup labels f = None) as Htf.
  { unfold target. destruct f; by rewrite ?Hf. }
  exists (listing (field_value soup labels price) (field_value soup labels area)
            (field_value soup labels bedrooms) (field_value soup labels bathrooms)
            (ensure_in_alexandria neighborhoods (raw_location soup labels))).
  split.
  { apply extract_property_data_total; [done|].
    intros g _. destruct (decide (g = f)) as [->|Hg]; [by left|right; by apply Hothers]. }
  split; [apply listing_dom|].
  pose proof (listing_lookup (field_value soup labels price)
                (field_value soup labels area) (field_value soup labels bedrooms)
                (field_value soup labels bathrooms)
                (ensure_in_alexandria neighborhoods (raw_location soup labels)))
    as (Hp & Ha & Hbd & Hbt & Hloc).
  split; [|split; [|split; [done|]]].
  - intros Hnl. destruct f; cbn [field_name]; try done;
      [rewrite Hp|rewrite Ha|rewrite Hbd|rewrite Hbt];
      unfold field_value; by rewrite Htf.
  - intros g e Hg Hnl He. destruct g; cbn [field_name]; try done;
      [rewrite Hp|rewrite Ha|rewrite Hbd|rewrite Hbt];
      unfold field_value; by rewrite He.
  - intros -> Hout. rewrite Hloc. f_equal.
    unfold raw_location. rewrite Hf. by apply ensure_in_alexandria_outside.
Qed.

Lemma single_missing_field_falls_back_witness :
  ∃ data,
    extract_property_data sample_web "/cairo" "https://site.example" sample_labels
      ["Smouha"; "Sidi Gaber"] []
    = (Ok data, [] ++ [Get ("https://site.example" +:+ "/cairo")])
    ∧ data !! "price" = Some "N/A"
    ∧ data !! "area" = Some "220 m2".
Proof.
  destruct (single_missing_field_falls_back sample_web "/cairo" "https://site.example" sample_labels
              ["Smouha"; "Sidi Gaber"] (detail_page_no_price "Maadi, Cairo") [] price)
    as (data & Hrun & _ & Hmissing & Hothers & _).
  - by vm_compute.
  - by vm_compute.
  - intros g Hg. destruct g; [done|..]; by eexists; vm_compute.
  - exists data. split; [done|]. split; [by apply Hmissing|].
    destruct (target (BS4.BeautifulSoup (detail_page_no_price "Maadi, Cairo"))
                sample_labels area) as [e|] eqn:He; [|by vm_compute in He].
    change (data !! field_name area = Some "220 m2").
    rewrite (Hothers area e) by done.
    vm_compute in He. injection He as <-. by vm_compute.
Defined.

(** C5. When the links are collected and every detail page is extracted,
    [scrape_website] returns the extracted records that pass the gate, in
    link order: a record is in the batch exactly when it was extracted from
    one of the links and its location is not the sentinel; and a page whose
    raw location names none of the configured neighbourhoods yields a record
    with the sentinel as location, which is not in the batch. *)
Theorem batch_keeps_exactly_located_listings
    (web : string → option BS4.node) (config : Config) (max_pages : Z)
    (tr tr1 : list event) (links : list string) :
  collect_links web config (Py.range 1 (max_pages + 1)) [] tr = (Ok links, tr1) →
  (∀ link, link ∈ links → ∃ data, extracted web config link = Ok data) →
  ∃ batch tr2,
    scrape_website web config max_pages tr = (Ok batch, tr2) ∧
    batch = filter accepted (listings_of web config links) ∧
    (∀ data, data ∈ batch ↔
       ∃ link, link ∈ links ∧ extracted web config link = Ok data
               ∧ data !! "location" ≠ Some "N/A") ∧
    (∀ link raw data,
       link ∈ links →
       raw_location_of web config link = Some raw →
       in_neighborhoods (NEIGHBORHOODS config) raw = false →
       extracted web config link = Ok data →
       data !! "location" = Some "N/A" ∧ data ∉ batch).
Proof.
  intros Hlinks Hall.
  exists (filter accepted (listings_of web config links)),
    (tr1 ++ detail_trace config links).
  split; [by apply scrape_website_run|]. split; [done|].
  split; [apply elem_of_batch|].
  intros link raw data Hlink Hraw Hout Hdata.
  assert (data !! "location" = Some "N/A") as Hloc.
  { apply extracted_returns in Hdata as (root & p & a & bd & bt & Hweb & ->).
    unfold raw_location_of in Hraw. rewrite Hweb in Hraw. injection Hraw as <-.
    rewrite ensure_in_alexandria_outside by done.
    by destruct (listing_lookup p a bd bt "N/A") as (_ & _ & _ & _ & ->). }
  split; [done|].
  intros (_ & _ & _ & Hne)%elem_of_batch. by apply Hne.
Qed.

Lemma batch_keeps_exactly_located_listings_witness :
  ∃ batch tr2,
    scrape_website sample_web sample_config 40 [] = (Ok batch, tr2)
    ∧ batch = filter accepted (listings_of sample_web sample_config ["/villa"; "/cairo"]).
Proof.
  destruct (batch_keeps_exactly_located_listings sample_web sample_config 40 []
              [Get "https://site.example/alexandria?page=1"; Sleep 1;
               Get "https://site.example/alexandria?page=2"]
              ["/villa"; "/cairo"])
    as (batch & tr2 & Hrun & Hbatch & _).
  - by vm_compute.
  - intros link Hlink.
    repeat (apply elem_of_cons in Hlink as [->|Hlink]);
      [eexists; by vm_compute..|by apply elem_of_nil in Hlink].
  - by exists batch, tr2.
Defined.

(** C10. Under the same conditions every record of the batch comes from a
    page whose raw location names a configured neighbourhood, its location
    contains "Alexandria", and the second-pass normalisation leaves the
    batch as it is. *)
Theorem accepted_listings_are_in_alexandria
    (web : string → option BS4.node) (config : Config) (max_pages : Z)
    (tr tr1 : list event) (links : list string) :
  collect_links web config (Py.range 1 (max_pages + 1)) [] tr = (Ok links, tr1) →
  (∀ link, link ∈ links → ∃ data, extracted web config link = Ok data) →
  ∃ batch tr2,
    scrape_website web config max_pages tr = (Ok batch, tr2) ∧
    (∀ data, data ∈ batch →
       ∃ link raw loc,
         link ∈ links ∧
         raw_location_of web config link = Some raw ∧
         in_neighborhoods (NEIGHBORHOODS config) raw = true ∧
         data !! "location" = Some loc ∧
         loc ≠ "N/A" ∧
         Py.contains "Alexandria" loc = true ∧
         normalize_location loc = loc) ∧
    (batch ≠ [] → apply_location normalize_location batch = Ok batch).
Proof.
  intros Hlinks Hall.
  exists (filter accepted (listings_of web config links)),
    (tr1 ++ detail_trace config links).
  split; [by apply scrape_website_run|].
  assert (∀ data, data ∈ filter accepted (listings_of web config links) →
            ∃ link raw loc,
              link ∈ links ∧
              raw_location_of web config link = Some raw ∧
              in_neighborhoods (NEIGHBORHOODS config) raw = true ∧
              data !! "location" = Some loc ∧
              loc ≠ "N/A" ∧
              Py.contains "Alexandria" loc = true ∧
              normalize_location loc = loc) as Hbatch.
  { intros data (link & Hlink & Hdata & Hne)%elem_of_batch.
    apply extracted_returns in Hdata as (root & p & a & bd & bt & Hweb & ->).
    destruct (listing_lookup p a bd bt
                (ensure_in_alexandria (NEIGHBORHOODS config)
                   (raw_location (BS4.BeautifulSoup root) (FIELDS config))))
      as (_ & _ & _ & _ & Hloc).
    assert (ensure_in_alexandria (NEIGHBORHOODS config)
              (raw_location (BS4.BeautifulSoup root) (FIELDS config)) ≠ "N/A") as Hpass
      by (intros E; apply Hne; by rewrite Hloc, E).
    destruct (ensure_in_alexandria_passed _ _ Hpass) as [Hin Halex].
    exists link, (raw_location (BS4.BeautifulSoup root) (FIELDS config)),
      (ensure_in_alexandria (NEIGHBORHOODS config)
         (raw_location (BS4.BeautifulSoup root) (FIELDS config))).
    unfold raw_location_of. rewrite Hweb.
    repeat split; try done. by apply normalize_location_fixed. }
  split; [done|]. intros Hne.
  apply apply_location_fixed; [done|]. intros data Hdata.
  destruct (Hbatch data Hdata) as (_ & _ & loc & _ & _ & _ & Hloc & _ & _ & Hfix).
  by exists loc.
Qed.

Lemma accepted_listings_are_in_alexandria_witness :
  ∃ batch tr2,
    scrape_website sample_web sample_config 40 [] = (Ok batch, tr2)
    ∧ (batch ≠ [] → apply_location normalize_location batch = Ok batch).
Proof.
  destruct (accepted_listings_are_in_alexandria sample_web sample_config 40 []
              [Get "https://site.example/alexandria?page=1"; Sleep 1;
               Get "https://site.example/alexandria?page=2"]
              ["/villa"; "/cairo"])
    as (batch & tr2 & Hrun & _ & Hfix).
  - by vm_compute.
  - intros link Hlink.
    repeat (apply elem_of_cons in Hlink as [->|Hlink]);
      [eexists; by vm_compute..|by apply elem_of_nil in Hlink].
  - by exists batch, tr2.
Defined.

(** * Further properties of the notebook *)

(** ** Listing pages *)

Section ListingPages.

Context (web : string → option BS4.node) (config : Config).

Lemma hrefs_complete divs tr :
  Forall (λ div, ¬ bare div) divs →
  hrefs divs tr = (Ok (omap first_href divs), tr).
Proof.
  induction 1 as [|div divs Hdiv _ IH]; [done|].
  cbn [hrefs omap list_omap]. unfold first_href at 1, first_anchor.
  destruct (BS4.find div (BS4.is_tag "a")) as [a|] eqn:Ha; [|exact IH].
  destruct (BS4.attrs_of (BS4.el_node a) !! "href") as [href|] eqn:Hhref.
  - unfold bind, getitem. rewrite Hhref. unfold ret at 1. by rewrite IH.
  - destruct Hdiv. by exists a.
Qed.

Lemma hrefs_bare divs tr :
  Exists bare divs → hrefs divs tr = (Raise (KeyError "href"), tr).
Proof.
  induction divs as [|div divs IH]; intros Hex; [by apply Exists_nil in Hex|].
  cbn [hrefs].
  destruct (BS4.find div (BS4.is_tag "a")) as [a|] eqn:Ha.
  - unfold bind, getitem.
    destruct (BS4.attrs_of (BS4.el_node a) !! "href") as [href|] eqn:Hhref; [|done].
    unfold ret at 1. rewrite IH; [done|].
    apply Exists_cons in Hex as [(a' & Ha' & Hhref')|Hex]; [|done].
    unfold first_anchor in Ha'. congruence.
  - apply IH. apply Exists_cons in Hex as [(a' & Ha' & _)|Hex]; [|done].
    unfold first_anchor in Ha'. congruence.
Qed.

Lemma page_links_fetched j root :
  web (page_url config j) = Some root →
  page_links web config j
  = outcome (hrefs (listing_divs (BS4.BeautifulSoup root) (LISTING_DIV_CLASS config))).
Proof.
  intros Hweb. unfold page_links, outcome, get_property_links, bind.
  rewrite requests_get_run. fold (page_url config j). rewrite Hweb.
  rewrite (hrefs_run _ ([] ++ _)). unfold listing_divs, outcome.
  by destruct (hrefs _ []) as [[links|e] tr0].
Qed.

Lemma page_url_inj j j' : page_url config j = page_url config j' → j = j'.
Proof.
  unfold page_url, Py.str. intros H%(inj (String.app _)).
  assert (∀ z, DecimalString.NilZero.int_of_string
                 (DecimalString.NilZero.string_of_int (Z.to_int z))
               = Some (Z.to_int z)) as Hparse.
  { intros z. apply DecimalString.NilZero.isi; intros Hz;
      pose proof (DecimalZ.of_to z) as Hback; rewrite Hz in Hback;
      cbn in Hback; subst z; discriminate Hz. }
  apply DecimalZ.to_int_inj.
  apply (f_equal DecimalString.NilZero.int_of_string) in H.
  rewrite !Hparse in H. congruence.
Qed.

Lemma NoDup_range lo hi : NoDup (Py.range lo hi).
Proof.
  unfold Py.range. apply NoDup_fmap_2; [|apply NoDup_seq].
  intros i i' H. lia.
Qed.

(** The requests of the link-collection loop, whatever the pages hold. *)
Lemma collect_links_requests pages all_links tr :
  ∃ (n : nat) tr',
    (collect_links web config pages all_links tr).2 = tr ++ tr'
    ∧ requested tr' = page_url config <$> take n pages.
Proof.
  revert all_links tr. induction pages as [|j pages IH]; intros all_links tr.
  - exists 0%nat, []. by rewrite app_nil_r.
  - cbn [collect_links]. unfold bind at 1. rewrite get_property_links_run.
    destruct (page_links web config j) as [[|x l]|e].
    + by exists 1%nat, [Get (page_url config j)].
    + unfold bind, sleep, emit.
      destruct (IH (all_links ++ x :: l) ((tr ++ [Get (page_url config j)]) ++ [Sleep 1]))
        as (n & tr' & Htr & Hreq).
      exists (S n), ([Get (page_url config j); Sleep 1] ++ tr'). split.
      * rewrite Htr. by rewrite <-!app_assoc.
      * cbn. by rewrite <-Hreq.
    + by exists 1%nat, [Get (page_url config j)].
Qed.

(** A page that cannot be read ends the loop with its exception. *)
Lemma collect_links_raise before k after all_links tr e :
  Forall (yields_links web config) before →
  page_links web config k = Raise e →
  collect_links web config (before ++ k :: after) all_links tr
  = (Raise e, tr ++ crawl_trace config before ++ [Get (page_url config k)]).
Proof.
  intros H Hk. revert all_links tr.
  induction H as [|j pages (l & Hj & Hl) _ IH]; intros all_links tr.
  - cbn [app collect_links]. unfold bind. by rewrite get_property_links_run, Hk.
  - cbn [app collect_links]. unfold bind at 1. rewrite get_property_links_run, Hj.
    destruct l as [|x l]; [done|].
    unfold bind, sleep, emit. rewrite IH.
    cbn [crawl_trace flat_map]. by rewrite <-!app_assoc.
Qed.

End ListingPages.

(** X1. On a fetched listing page whose link elements all carry a
    reference, [get_property_links] returns, in document order, the
    reference of the first link element of every listing container that has
    one; a container without a link element contributes nothing. *)
Theorem page_links_are_first_references
    (web : string → option BS4.node) (config : Config) (j : Z) (root : BS4.node) :
  web (page_url config j) = Some root →
  Forall (λ div, ¬ bare div)
    (listing_divs (BS4.BeautifulSoup root) (LISTING_DIV_CLASS config)) →
  page_links web config j
  = Ok (omap first_href
          (listing_divs (BS4.BeautifulSoup root) (LISTING_DIV_CLASS config))).
Proof.
  intros Hweb Hall. rewrite (page_links_fetched web config j root Hweb).
  unfold outcome. by rewrite hrefs_complete.
Qed.

Lemma page_links_are_first_references_witness :
  page_links sample_web sample_config 1
  = Ok (omap first_href
          (listing_divs
             (BS4.BeautifulSoup
                (document [listing_div "/villa";
                           BS4.Tag "div" {["class" := "listing"]} [];
                           listing_div "/cairo"]))
             (LISTING_DIV_CLASS sample_config))).
Proof.
  apply (page_links_are_first_references sample_web sample_config 1); [done|].
  repeat apply Forall_cons_2; try apply Forall_nil_2;
    intros (a & Ha & Hhref); vm_compute in Ha;
    try discriminate Ha; injection Ha as <-; by vm_compute in Hhref.
Defined.

(** X2. On a fetched listing page where some listing container's first link
    element has no [href], [get_property_links] raises [KeyError] for
    ["href"]: no link of the page is returned. *)
Theorem page_links_raise_on_link_without_reference
    (web : string → option BS4.node) (config : Config) (j : Z) (root : BS4.node) :
  web (page_url config j) = Some root →
  Exists bare (listing_divs (BS4.BeautifulSoup root) (LISTING_DIV_CLASS config)) →
  page_links web config j = Raise (KeyError "href").
Proof.
  intros Hweb Hex. rewrite (page_links_fetched web config j root Hweb).
  unfold outcome. by rewrite hrefs_bare.
Qed.

Lemma page_links_raise_on_link_without_reference_witness :
  page_links web_bare_anchor sample_config 1 = Raise (KeyError "href").
Proof.
  eapply (page_links_raise_on_link_without_reference web_bare_anchor sample_config 1);
    [reflexivity|].
  apply Exists_cons_hd. eexists. split; by vm_compute.
Defined.

(** X3. Whatever the site serves, the link-collection loop of
    [scrape_website] requests a prefix of the URLs of pages [1..max_pages],
    in page order and none of them twice; in particular never more than
    [max_pages] pages. *)
Theorem crawl_requests_prefix_of_pages
    (web : string → option BS4.node) (config : Config) (max_pages : Z)
    (tr : list event) :
  ∃ (n : nat) tr',
    (collect_links web config (Py.range 1 (max_pages + 1)) [] tr).2 = tr ++ tr'
    ∧ requested tr' = page_url config <$> take n (Py.range 1 (max_pages + 1))
    ∧ NoDup (requested tr')
    ∧ (Z.of_nat (length (requested tr')) ≤ Z.max 0 max_pages).
Proof.
  destruct (collect_links_requests web config (Py.range 1 (max_pages + 1)) [] tr)
    as (n & tr' & Htr & Hreq).
  exists n, tr'. split; [done|]. split; [done|]. rewrite Hreq. split.
  - apply NoDup_fmap_2; [intros j j'; apply page_url_inj|].
    eapply sublist_NoDup; [apply NoDup_range|apply sublist_take].
  - rewrite length_fmap, length_take. unfold Py.range.
    rewrite length_fmap, length_seq. lia.
Qed.

(** X4. With [max_pages] zero or negative [scrape_website] requests nothing
    and returns the empty batch. *)
Theorem scrape_website_without_pages
    (web : string → option BS4.node) (config : Config) (max_pages : Z)
    (tr : list event) :
  max_pages ≤ 0 → scrape_website web config max_pages tr = (Ok [], tr).
Proof.
  intros H. unfold scrape_website. by rewrite range_nil by lia.
Qed.

Lemma scrape_website_without_pages_witness :
  0 ≤ 0 ∧ scrape_website sample_web sample_config 0 [] = (Ok [], []).
Proof.
  split; [lia|]. apply (scrape_website_without_pages sample_web sample_config 0 []). lia.
Defined.

(** X5. When pages [1..k-1] carry links and page [k] cannot be read (its
    request fails, or a link element lacks its reference), [scrape_website]
    ends with that exception after requesting pages [1..k]: no detail page
    is requested, and the links collected so far are not used. *)
Theorem scrape_website_aborts_on_unreadable_page
    (web : string → option BS4.node) (config : Config) (max_pages k : Z)
    (tr : list event) (e : exn) :
  1 ≤ k ≤ max_pages →
  (∀ j, 1 ≤ j < k → yields_links web config j) →
  page_links web config k = Raise e →
  ∃ tr',
    scrape_website web config max_pages tr = (Raise e, tr ++ tr')
    ∧ requested tr' = page_url config <$> Py.range 1 (k + 1).
Proof.
  intros Hk Hbefore Hfail.
  exists (crawl_trace config (Py.range 1 k) ++ [Get (page_url config k)]). split.
  - unfold scrape_website, bind.
    rewrite (range_split 1 k (max_pages + 1)) by lia.
    rewrite (collect_links_raise web config _ k _ [] tr e); [done| |done].
    apply Forall_forall. intros j Hj%elem_of_range. by apply Hbefore.
  - unfold requested. rewrite omap_app.
    fold (requested (crawl_trace config (Py.range 1 k))).
    rewrite requested_crawl_trace, (range_split 1 k (k + 1)) by lia.
    rewrite (range_nil (k + 1)) by lia. by rewrite fmap_app.
Qed.

Lemma scrape_website_aborts_on_unreadable_page_witness :
  ∃ tr',
    scrape_website web_first_page_only sample_config 40 []
    = (Raise ConnectionError, [] ++ tr')
    ∧ requested tr' = page_url sample_config <$> Py.range 1 (2 + 1).
Proof.
  apply (scrape_website_aborts_on_unreadable_page web_first_page_only sample_config
           40 2 [] ConnectionError); [lia| |by vm_compute].
  intros j Hj. assert (j = 1) as -> by lia.
  exists ["/villa"; "/cairo"]. split; [by vm_compute|done].
Defined.

(** ** Detail pages *)

Section DetailPages.

Context (web : string → option BS4.node).

(** A text-anchor field either has its value or its label dangles. *)
Lemma anchored_value_cases soup labels g :
  g ∈ [area; bedrooms; bathrooms] →
  (anchored_value soup labels g = Ok (field_value soup labels g)
   ∧ (anchor soup labels g = None ∨ is_Some (target soup labels g)))
  ∨ (anchored_value soup labels g = Raise AttributeError
     ∧ is_Some (anchor soup labels g) ∧ target soup labels g = None).
Proof.
  intros Hg.
  destruct (anchor soup labels g) as [l|] eqn:Hl.
  - destruct (target soup labels g) as [e|] eqn:He.
    + left. split; [|right; by eexists].
      apply anchored_value_ok; [done|]. right. rewrite He. by eexists.
    + right. split; [|split; [by eexists|done]].
      rewrite anchored_value_unfold by done. by rewrite Hl, He.
  - left. split; [|by left].
    apply anchored_value_ok; [done|]. left. by rewrite Hl.
Qed.

(** On a fetched page the call returns, or a label dangles and it raises. *)
Lemma extract_fetched_cases url base_domain labels neighborhoods root tr :
  web (base_domain +:+ url) = Some root →
  ((∃ data,
      (extract_property_data web url base_domain labels neighborhoods tr).1 = Ok data)
   ∧ ∀ g, g ∈ [area; bedrooms; bathrooms] →
       anchor (BS4.BeautifulSoup root) labels g = None
       ∨ is_Some (target (BS4.BeautifulSoup root) labels g))
  ∨ ((extract_property_data web url base_domain labels neighborhoods tr).1
     = Raise AttributeError
     ∧ ∃ g, g ∈ [area; bedrooms; bathrooms]
            ∧ is_Some (anchor (BS4.BeautifulSoup root) labels g)
            ∧ target (BS4.BeautifulSoup root) labels g = None).
Proof.
  intros Hweb. rewrite extract_property_data_run, Hweb. cbv zeta. cbn [fst].
  destruct (anchored_value_cases (BS4.BeautifulSoup root) labels area)
    as [[Ha Hfa]|(Ha & ? & ?)]; [set_solver| |]; rewrite Ha;
    [|right; split; [done|]; exists area; set_solver].
  destruct (anchored_value_cases (BS4.BeautifulSoup root) labels bedrooms)
    as [[Hb Hfb]|(Hb & ? & ?)]; [set_solver| |]; rewrite Hb;
    [|right; split; [done|]; exists bedrooms; set_solver].
  destruct (anchored_value_cases (BS4.BeautifulSoup root) labels bathrooms)
    as [[Hc Hfc]|(Hc & ? & ?)]; [set_solver| |]; rewrite Hc;
    [|right; split; [done|]; exists bathrooms; set_solver].
  left. split; [by eexists|]. intros g Hg.
  repeat (apply elem_of_cons in Hg as [->|Hg]); [done..|].
  by apply elem_of_nil in Hg.
Qed.

Lemma ensure_in_alexandria_range neighborhoods raw :
  ensure_in_alexandria neighborhoods raw = "N/A"
  ∨ Py.contains "Alexandria" (ensure_in_alexandria neighborhoods raw) = true.
Proof.
  destruct (decide (ensure_in_alexandria neighborhoods raw = "N/A")) as [?|Hne];
    [by left|right]. by apply ensure_in_alexandria_passed.
Qed.

Lemma normalize_location_has_area x :
  Py.contains "Alexandria" (normalize_location x) = true.
Proof.
  unfold normalize_location.
  destruct (Py.contains "Alexandria" x) eqn:E; [done|apply contains_suffixed].
Qed.

Lemma contains_empty s : Py.contains "" s = true.
Proof. by destruct s. Qed.

Lemma in_neighborhoods_empty_string neighborhoods raw :
  "" ∈ neighborhoods → in_neighborhoods neighborhoods raw = true.
Proof.
  intros H. unfold in_neighborhoods, Py.any. apply existsb_exists.
  exists "". split; [by apply list_elem_of_In|apply contains_empty].
Qed.

End DetailPages.

(** X6. [extract_property_data] calls [requests.get] exactly once, on
    [base_domain + url], whatever happens. On a fetched page it returns
    exactly when every label of a text-anchor field (area, bedrooms,
    bathrooms) that the page has is followed by a span, and it raises
    [AttributeError] exactly when one of those labels is there with no span
    after it. *)
Theorem extract_property_data_outcomes
    (web : string → option BS4.node) (url base_domain : string) (labels : Labels)
    (neighborhoods : list string) (tr : list event) :
  (extract_property_data web url base_domain labels neighborhoods tr).2
  = tr ++ [Get (base_domain +:+ url)] ∧
  ∀ root, web (base_domain +:+ url) = Some root →
    ((∃ data,
        (extract_property_data web url base_domain labels neighborhoods tr).1 = Ok data)
     ↔ ∀ g, g ∈ [area; bedrooms; bathrooms] →
         anchor (BS4.BeautifulSoup root) labels g = None
         ∨ is_Some (target (BS4.BeautifulSoup root) labels g)) ∧
    ((extract_property_data web url base_domain labels neighborhoods tr).1
     = Raise AttributeError
     ↔ ∃ g, g ∈ [area; bedrooms; bathrooms]
            ∧ is_Some (anchor (BS4.BeautifulSoup root) labels g)
            ∧ target (BS4.BeautifulSoup root) labels g = None).
Proof.
  split; [by rewrite extract_property_data_run|]. intros root Hweb.
  destruct (extract_fetched_cases web url base_domain labels neighborhoods root tr Hweb)
    as [[[data Hdata] Hfine]|[Hraise (g & Hg & Hl & Ht)]].
  - split; [split; [intros _; exact Hfine|intros _; by exists data]|]. split.
    + intros Hr. rewrite Hdata in Hr. done.
    + intros (g & Hg & [l Hl] & Ht). destruct (Hfine g Hg) as [Hn|[e He]]; congruence.
  - split; [|split; [intros _; by exists g|done]]. split.
    + intros [data Hdata]. rewrite Hraise in Hdata. done.
    + intros Hfine. destruct Hl as [l Hl].
      destruct (Hfine g Hg) as [Hn|[e He]]; congruence.
Qed.

Lemma extract_property_data_outcomes_witness :
  (extract_property_data sample_web "/villa" "https://site.example" sample_labels
     ["Smouha"; "Sidi Gaber"] []).2
  = [] ++ [Get ("https://site.example" +:+ "/villa")]
  ∧ ∃ data,
      (extract_property_data sample_web "/villa" "https://site.example" sample_labels
         ["Smouha"; "Sidi Gaber"] []).1 = Ok data.
Proof.
  destruct (extract_property_data_outcomes sample_web "/villa" "https://site.example"
              sample_labels ["Smouha"; "Sidi Gaber"] []) as (Htr & Hfetched).
  split; [done|].
  destruct (Hfetched (detail_page "Smouha")) as [Hiff _]; [by vm_compute|].
  apply Hiff. intros g Hg. right.
  repeat (apply elem_of_cons in Hg as [->|Hg]);
    [eexists; by vm_compute..|by apply elem_of_nil in Hg].
Defined.

(** X7. Every record that [extract_property_data] returns has exactly the
    five fields, and its location is the sentinel or contains
    "Alexandria". *)
Theorem extracted_record_is_listing
    (web : string → option BS4.node) (url base_domain : string) (labels : Labels)
    (neighborhoods : list string) (tr tr' : list event) (data : row) :
  extract_property_data web url base_domain labels neighborhoods tr = (Ok data, tr') →
  is_listing data ∧
  ∃ loc, data !! "location" = Some loc
         ∧ (loc = "N/A" ∨ Py.contains "Alexandria" loc = true).
Proof.
  intros (root & a & bd & bt & _ & _ & _ & _ & -> & _)%extract_property_data_returns.
  split; [apply listing_dom|].
  eexists. split; [apply listing_lookup|apply ensure_in_alexandria_range].
Qed.

Lemma extracted_record_is_listing_witness :
  is_listing sample_villa ∧
  ∃ loc, sample_villa !! "location" = Some loc
         ∧ (loc = "N/A" ∨ Py.contains "Alexandria" loc = true).
Proof.
  apply (extracted_record_is_listing sample_web "/villa" "https://site.example"
           sample_labels ["Smouha"; "Sidi Gaber"] []
           [Get "https://site.example/villa"] sample_villa).
  by vm_compute.
Defined.

(** X8. With the empty string among the neighbourhoods every returned
    record passes the acceptance test of [scrape_website]: its location is
    the raw text with ", Alexandria" appended when absent, so a page without
    a location element is stored as "N/A, Alexandria". *)
Theorem empty_neighborhood_accepts_every_page
    (web : string → option BS4.node) (url base_domain : string) (labels : Labels)
    (neighborhoods : list string) (root : BS4.node) (tr tr' : list event)
    (data : row) :
  "" ∈ neighborhoods →
  web (base_domain +:+ url) = Some root →
  extract_property_data web url base_domain labels neighborhoods tr = (Ok data, tr') →
  data !! "location"
  = Some (normalize_location (raw_location (BS4.BeautifulSoup root) labels))
  ∧ accepted data = true
  ∧ (anchor (BS4.BeautifulSoup root) labels location = None →
     data !! "location" = Some "N/A, Alexandria").
Proof.
  intros Hin Hweb Hrun.
  apply extract_property_data_returns in Hrun
    as (root' & a & bd & bt & Hweb' & _ & _ & _ & -> & _).
  rewrite Hweb in Hweb'. injection Hweb' as <-.
  set (raw := raw_location (BS4.BeautifulSoup root) labels).
  assert (ensure_in_alexandria neighborhoods raw = normalize_location raw) as ->.
  { unfold normalize_location.
    pose proof (in_neighborhoods_empty_string neighborhoods raw Hin) as Hn.
    destruct (Py.contains "Alexandria" raw) eqn:Ha.
    - by apply ensure_in_alexandria_keeps.
    - by apply ensure_in_alexandria_appends. }
  split; [apply listing_lookup|]. split.
  - rewrite accepted_listing. apply bool_decide_eq_true_2. intros Heq.
    pose proof (normalize_location_has_area raw) as Hc.
    rewrite Heq in Hc. by vm_compute in Hc.
  - intros Hnone. subst raw. unfold raw_location. rewrite Hnone.
    apply listing_lookup.
Qed.

Lemma empty_neighborhood_accepts_every_page_witness :
  listing "N/A" "220 m2" "4" "3" "Maadi, Cairo, Alexandria" !! "location"
  = Some (normalize_location
            (raw_location (BS4.BeautifulSoup (detail_page_no_price "Maadi, Cairo"))
               sample_labels))
  ∧ accepted (listing "N/A" "220 m2" "4" "3" "Maadi, Cairo, Alexandria") = true.
Proof.
  destruct (empty_neighborhood_accepts_every_page sample_web "/cairo"
              "https://site.example" sample_labels [""]
              (detail_page_no_price "Maadi, Cairo") []
              [Get "https://site.example/cairo"]
              (listing "N/A" "220 m2" "4" "3" "Maadi, Cairo, Alexandria"))
    as (Hloc & Hacc & _); [by left|by vm_compute|by vm_compute|].
  by split.
Defined.

(** ** One site, and all sites *)

Section Sites.

Context (web : string → option BS4.node).

Lemma collect_listings_step config link rest listings tr data :
  extracted web config link = Ok data →
  collect_listings web config (link :: rest) listings tr
  = collect_listings web config rest
      (if accepted data then listings ++ [data] else listings)
      ((tr ++ [Get (BASE_DOMAIN config +:+ link)]) ++ [Sleep 1]).
Proof.
  intros Hdata. cbn [collect_listings]. unfold bind at 1.
  rewrite extract_property_data_outcome, Hdata.
  apply extracted_returns in Hdata as (root & p & a & bd & bt & _ & ->).
  unfold bind at 1. rewrite getitem_listing_location, accepted_listing.
  by unfold bind, sleep, emit.
Qed.

Lemma collect_listings_step_raise config link rest listings tr e :
  extracted web config link = Raise e →
  collect_listings web config (link :: rest) listings tr
  = (Raise e, tr ++ [Get (BASE_DOMAIN config +:+ link)]).
Proof.
  intros He. cbn [collect_listings]. unfold bind at 1.
  by rewrite extract_property_data_outcome, He.
Qed.

(** A detail page that cannot be extracted ends the loop. *)
Lemma collect_listings_raise config before link after listings tr e :
  (∀ l, l ∈ before → ∃ data, extracted web config l = Ok data) →
  extracted web config link = Raise e →
  collect_listings web config (before ++ link :: after) listings tr
  = (Raise e,
     tr ++ detail_trace config before ++ [Get (BASE_DOMAIN config +:+ link)]).
Proof.
  intros Hbefore He. revert listings tr.
  induction before as [|l before IH]; intros listings tr.
  - cbn [app]. by rewrite (collect_listings_step_raise _ _ _ _ _ e).
  - destruct (Hbefore l) as [data Hdata]; [by left|].
    cbn [app]. rewrite (collect_listings_step _ _ _ _ _ data Hdata).
    rewrite IH by (intros l' Hl'; apply Hbefore; by right).
    cbn [detail_trace flat_map]. by rewrite <-!app_assoc.
Qed.

(** The loop returns only when every detail page was extracted. *)
Lemma collect_listings_returns config links listings tr out tr' :
  collect_listings web config links listings tr = (Ok out, tr') →
  ∀ link, link ∈ links → ∃ data, extracted web config link = Ok data.
Proof.
  revert listings tr. induction links as [|l links IH]; intros listings tr Hrun link Hlink;
    [by apply elem_of_nil in Hlink|].
  destruct (extracted web config l) as [data|e] eqn:Hl.
  - rewrite (collect_listings_step _ _ _ _ _ data Hl) in Hrun.
    apply elem_of_cons in Hlink as [->|Hlink]; [by exists data|].
    by apply (IH _ _ Hrun).
  - by rewrite (collect_listings_step_raise _ _ _ _ _ e Hl) in Hrun.
Qed.

Lemma scrape_website_returns config max_pages tr batch tr' :
  scrape_website web config max_pages tr = (Ok batch, tr') →
  ∃ links tr1,
    collect_links web config (Py.range 1 (max_pages + 1)) [] tr = (Ok links, tr1)
    ∧ (∀ link, link ∈ links → ∃ data, extracted web config link = Ok data)
    ∧ batch = filter accepted (listings_of web config links)
    ∧ tr' = tr1 ++ detail_trace config links.
Proof.
  intros Hrun.
  destruct (collect_links web config (Py.range 1 (max_pages + 1)) [] tr)
    as [[links|e] tr1] eqn:Hlinks;
    [|by unfold scrape_website, bind in Hrun; rewrite Hlinks in Hrun].
  assert (∀ link, link ∈ links → ∃ data, extracted web config link = Ok data) as Hall.
  { unfold scrape_website in Hrun. unfold bind at 1 in Hrun. rewrite Hlinks in Hrun.
    unfold bind in Hrun.
    destruct (collect_listings web config links [] tr1) as [[out|e] tr2] eqn:Hl;
      [|done].
    by apply (collect_listings_returns _ _ _ _ _ _ Hl). }
  exists links, tr1. split; [done|]. split; [done|].
  rewrite (scrape_website_run web config max_pages tr links tr1 Hlinks Hall) in Hrun.
  by injection Hrun as <- <-.
Qed.

Lemma batch_located config links :
  Forall located_listing (filter accepted (listings_of web config links)).
Proof.
  apply Forall_forall. intros data (link & _ & Hdata & Hne)%elem_of_batch.
  apply extracted_returns in Hdata as (root & p & a & bd & bt & _ & ->).
  split; [apply listing_dom|].
  destruct (listing_lookup p a bd bt
              (ensure_in_alexandria (NEIGHBORHOODS config)
                 (raw_location (BS4.BeautifulSoup root) (FIELDS config))))
    as (_ & _ & _ & _ & Hloc).
  eexists. split; [exact Hloc|].
  assert (ensure_in_alexandria (NEIGHBORHOODS config)
            (raw_location (BS4.BeautifulSoup root) (FIELDS config)) ≠ "N/A") as Hpass
    by (intros E; apply Hne; by rewrite Hloc, E).
  split; [done|]. by apply ensure_in_alexandria_passed.
Qed.

Lemma scrape_all_app websites1 websites2 all_data tr :
  scrape_all web (websites1 ++ websites2) all_data tr
  = match scrape_all web websites1 all_data tr with
    | (Ok frames, tr1) => scrape_all web websites2 frames tr1
    | (Raise e, tr1) => (Raise e, tr1)
    end.
Proof.
  revert all_data tr. induction websites1 as [|[name config] websites1 IH];
    intros all_data tr; [done|].
  cbn [app scrape_all]. unfold bind.
  by destruct (scrape_website web config 40 tr) as [[data|e] tr1].
Qed.

Lemma scrape_all_returns websites all_data tr out tr' :
  scrape_all web websites all_data tr = (Ok out, tr') →
  ∃ frames,
    out = all_data ++ frames
    ∧ length frames = length websites
    ∧ Forall (Forall located_listing) frames.
Proof.
  revert all_data tr. induction websites as [|[name config] websites IH];
    intros all_data tr Hrun.
  - injection Hrun as <- <-. exists []. by rewrite app_nil_r.
  - cbn [scrape_all] in Hrun. unfold bind in Hrun.
    destruct (scrape_website web config 40 tr) as [[data|e] tr1] eqn:Hsite; [|done].
    apply IH in Hrun as (frames & -> & Hlen & Hall).
    exists (data :: frames). split; [by rewrite <-app_assoc|].
    split; [cbn; by rewrite Hlen|].
    apply Forall_cons_2; [|done].
    apply scrape_website_returns in Hsite as (links & _ & _ & _ & -> & _).
    apply batch_located.
Qed.

End Sites.

(** X9. The requests of a run of [scrape_website] that ends at the empty
    page [k]: each listing page with links is requested and followed by
    [sleep(1)], the empty page is requested and followed by no sleep, and
    then each collected link is requested once, in order, and followed by
    [sleep(1)]. So the request of the empty page and the first detail
    request come with no pause between them. *)
Theorem scrape_website_trace
    (web : string → option BS4.node) (config : Config) (max_pages k : Z)
    (tr : list event) :
  1 ≤ k ≤ max_pages →
  (∀ j, 1 ≤ j < k → yields_links web config j) →
  page_links web config k = Ok [] →
  (∀ link, link ∈ links_of_pages web config (Py.range 1 k) →
     ∃ data, extracted web config link = Ok data) →
  (scrape_website web config max_pages tr).2
  = tr ++ crawl_trace config (Py.range 1 k) ++ [Get (page_url config k)]
       ++ detail_trace config (links_of_pages web config (Py.range 1 k)).
Proof.
  intros Hk Hbefore Hempty Hall.
  assert (collect_links web config (Py.range 1 (max_pages + 1)) [] tr
          = (Ok (links_of_pages web config (Py.range 1 k)),
             tr ++ crawl_trace config (Py.range 1 k) ++ [Get (page_url config k)]))
    as Hlinks.
  { rewrite (range_split 1 k (max_pages + 1)) by lia.
    apply (collect_links_break web config _ k _ [] tr); [|done].
    apply Forall_forall. intros j Hj%elem_of_range. by apply Hbefore. }
  rewrite (scrape_website_run web config max_pages tr _ _ Hlinks Hall).
  cbn [snd]. by rewrite <-!app_assoc.
Qed.

Lemma scrape_website_trace_witness :
  (scrape_website sample_web sample_config 40 []).2
  = [] ++ crawl_trace sample_config (Py.range 1 2)
       ++ [Get (page_url sample_config 2)]
       ++ detail_trace sample_config
            (links_of_pages sample_web sample_config (Py.range 1 2)).
Proof.
  apply (scrape_website_trace sample_web sample_config 40 2 []).
  - lia.
  - intros j Hj. assert (j = 1) as -> by lia.
    exists ["/villa"; "/cairo"]. split; [by vm_compute|done].
  - by vm_compute.
  - intros link Hlink.
    assert (link ∈ ["/villa"; "/cairo"]) as Hin by (by vm_compute in Hlink).
    repeat (apply elem_of_cons in Hin as [->|Hin]);
      [eexists; by vm_compute..|by apply elem_of_nil in Hin].
Defined.

(** X10. When the links are collected and the detail page of one of them
    cannot be extracted, [scrape_website] ends with that exception right
    after requesting it: the records of the links before it are not
    returned and the links after it are not requested. *)
Theorem scrape_website_aborts_on_unreadable_detail_page
    (web : string → option BS4.node) (config : Config) (max_pages : Z)
    (tr tr1 : list event) (before after : list string) (link : string) (e : exn) :
  collect_links web config (Py.range 1 (max_pages + 1)) [] tr
  = (Ok (before ++ link :: after), tr1) →
  (∀ l, l ∈ before → ∃ data, extracted web config l = Ok data) →
  extracted web config link = Raise e →
  scrape_website web config max_pages tr
  = (Raise e,
     tr1 ++ detail_trace config before ++ [Get (BASE_DOMAIN config +:+ link)]).
Proof.
  intros Hlinks Hbefore He. unfold scrape_website. unfold bind at 1.
  rewrite Hlinks. unfold bind.
  by rewrite (collect_listings_raise web config before link after [] tr1 e).
Qed.

Lemma scrape_website_aborts_on_unreadable_detail_page_witness :
  scrape_website web_dead_link sample_config 40 []
  = (Raise ConnectionError,
     [Get "https://site.example/alexandria?page=1"; Sleep 1;
      Get "https://site.example/alexandria?page=2"]
     ++ detail_trace sample_config ["/villa"]
     ++ [Get (BASE_DOMAIN sample_config +:+ "/gone")]).
Proof.
  apply (scrape_website_aborts_on_unreadable_detail_page web_dead_link sample_config
           40 [] _ ["/villa"] ["/cairo"] "/gone" ConnectionError).
  - by vm_compute.
  - intros l Hl. apply list_elem_of_singleton in Hl as ->. eexists. by vm_compute.
  - by vm_compute.
Defined.

(** X11. With no neighbourhood configured, a run of [scrape_website] that
    returns, returns the empty batch. *)
Theorem no_neighborhoods_no_listings
    (web : string → option BS4.node) (config : Config) (max_pages : Z)
    (tr tr' : list event) (batch : list row) :
  NEIGHBORHOODS config = [] →
  scrape_website web config max_pages tr = (Ok batch, tr') →
  batch = [].
Proof.
  intros Hnone (links & tr1 & _ & _ & -> & _)%scrape_website_returns.
  apply elem_of_nil_inv. intros data (link & _ & Hdata & Hne)%elem_of_batch.
  apply extracted_returns in Hdata as (root & p & a & bd & bt & _ & ->).
  apply Hne. rewrite Hnone.
  by destruct (listing_lookup p a bd bt
                 (ensure_in_alexandria []
                    (raw_location (BS4.BeautifulSoup root) (FIELDS config))))
    as (_ & _ & _ & _ & ->).
Qed.

Lemma no_neighborhoods_no_listings_witness :
  (scrape_website sample_web sample_config_no_neighborhoods 40 []).1 = Ok [].
Proof.
  destruct (scrape_website sample_web sample_config_no_neighborhoods 40 [])
    as [[batch|e] tr'] eqn:Hrun; [|by vm_compute in Hrun].
  cbn [fst]. f_equal.
  by apply (no_neighborhoods_no_listings sample_web sample_config_no_neighborhoods
              40 [] tr' batch).
Defined.

(** X12. When the loop over the configured sites returns, it returns one
    frame per site, and every row of every frame is a listing whose location
    is not the sentinel and contains "Alexandria". *)
Theorem scrape_all_frames
    (web : string → option BS4.node) (websites : list (string * Config))
    (tr tr' : list event) (all_data : list (list row)) :
  scrape_all web websites [] tr = (Ok all_data, tr') →
  length all_data = length websites
  ∧ Forall located_listing (pd_concat all_data).
Proof.
  intros (frames & -> & Hlen & Hall)%scrape_all_returns. split; [done|].
  cbn [app]. unfold pd_concat. apply Forall_concat. done.
Qed.

Lemma scrape_all_frames_witness :
  ∃ all_data,
    (scrape_all sample_web sample_websites [] []).1 = Ok all_data
    ∧ length all_data = length sample_websites
    ∧ Forall located_listing (pd_concat all_data).
Proof.
  destruct (scrape_all sample_web sample_websites [] [])
    as [[all_data|e] tr'] eqn:Hrun; [|by vm_compute in Hrun].
  exists all_data. split; [done|].
  by apply (scrape_all_frames sample_web sample_websites [] tr').
Defined.

(** X13. The loop over the sites stops at the first site whose scraping
    raises: the exception ends the loop, the frames of the sites before it
    are not returned, and no later site is requested. *)
Theorem scrape_all_aborts_on_failing_site
    (web : string → option BS4.node) (before after : list (string * Config))
    (name : string) (config : Config) (tr tr1 tr2 : list event)
    (frames : list (list row)) (e : exn) :
  scrape_all web before [] tr = (Ok frames, tr1) →
  scrape_website web config 40 tr1 = (Raise e, tr2) →
  scrape_all web (before ++ (name, config) :: after) [] tr = (Raise e, tr2).
Proof.
  intros Hbefore Hsite. rewrite scrape_all_app, Hbefore.
  cbn [scrape_all]. unfold bind. by rewrite Hsite.
Qed.

Lemma scrape_all_aborts_on_failing_site_witness :
  (scrape_all sample_web
     (sample_websites ++ ("down", sample_config_down) :: sample_websites) [] []).1
  = Raise ConnectionError.
Proof.
  destruct (scrape_all sample_web sample_websites [] [])
    as [[frames|e] tr1] eqn:Hbefore; [|by vm_compute in Hbefore].
  destruct (scrape_website sample_web sample_config_down 40 tr1)
    as [[batch|e] tr2] eqn:Hsite.
  - vm_compute in Hbefore. injection Hbefore as <- <-. by vm_compute in Hsite.
  - rewrite (scrape_all_aborts_on_failing_site sample_web sample_websites
               sample_websites "down" sample_config_down [] tr1 tr2 frames e
               Hbefore Hsite).
    vm_compute in Hbefore. injection Hbefore as <- <-.
    vm_compute in Hsite. by injection Hsite as <- <-.
Defined.

(** ** Merging, once more *)

Section MergeAgain.

Implicit Types (r : row) (df existing new : list row).
Implicit Types (seen : list (list (option string))).

Lemma drop_duplicates_from_sublist seen df :
  drop_duplicates_from seen df `sublist_of` df.
Proof.
  revert seen. induction df as [|r df IH]; intros seen; [constructor|].
  cbn. case_decide; [apply sublist_cons|apply sublist_skip]; apply IH.
Qed.

Lemma keep_first_id df : NoDup (subset_key <$> df) → keep_first df = df.
Proof.
  intros Hnd. apply drop_duplicates_from_id; [done|].
  intros ? _. apply not_elem_of_nil.
Qed.

(** One listing among the existing rows is enough for the key columns. *)
Lemma merge_with_listing existing new r :
  r ∈ existing → is_listing r →
  merge existing new = Ok (keep_first (existing ++ new)).
Proof.
  intros Hr Hl.
  assert (empty existing = false) as Hempty.
  { unfold empty. apply orb_false_intro; apply bool_decide_eq_false_2.
    - intros ->. by apply elem_of_nil in Hr.
    - intros Hcol. assert ("price" ∈ columns existing) as Hin.
      { apply elem_of_columns. exists r. split; [done|].
        apply is_listing_lookup; [done|]. by left. }
      rewrite Hcol in Hin. by apply not_elem_of_empty in Hin. }
  unfold merge, pd_concat. rewrite Hempty. cbn [negb concat]. rewrite app_nil_r.
  apply (drop_duplicates_listing _ r); [|done]. apply elem_of_app. by left.
Qed.

(** What a merge that reaches [drop_duplicates] returns. *)
Lemma merge_returns existing new merged :
  merge existing new = Ok merged →
  (empty existing = false ∧ merged = keep_first (existing ++ new))
  ∨ (empty existing = true ∧ merged = new).
Proof.
  unfold merge, pd_concat, drop_duplicates. cbn [concat]. rewrite app_nil_r.
  destruct (empty existing); cbn [negb].
  - intros [= <-]. by right.
  - destruct (filter _ subset); [|done]. intros [= <-]. by left.
Qed.

Lemma keep_first_absorbs df new :
  keep_first (keep_first (df ++ new) ++ new) = keep_first (df ++ new).
Proof.
  rewrite keep_first_app.
  rewrite (keep_first_id (keep_first (df ++ new)))
    by apply drop_duplicates_from_NoDup.
  etrans; [|apply app_nil_r]. f_equal.
  apply elem_of_nil_inv. intros r [Hout Hr]%list_elem_of_filter. apply Hout.
  apply elem_of_drop_duplicates_from in Hr as [Hr _].
  destruct (drop_duplicates_from_complete [] (df ++ new) r) as [[]%elem_of_nil|Hk];
    [|done].
  apply elem_of_app. by right.
Qed.

End MergeAgain.

(** X14. Merging into a non-empty frame that has the five key columns and
    no two rows with the same key keeps the rows of that frame as they are,
    in place and in order, and appends the rows of the new batch whose key,
    cell for cell, is not a key of the existing frame, each such key once
    and in batch order. *)
Theorem merge_extends_existing
    {C : Type} `{EqDecision C} (existing new : DataFrame C) :
  df_rows existing ≠ [] →
  (∀ c, c ∈ subset → c ∈ df_columns existing) →
  NoDup (cells_key <$> df_rows existing) →
  ∃ merged,
    merge_frames existing new = Ok merged
    ∧ df_rows merged
      = df_rows existing
        ++ filter (λ r, cells_key r ∉ cells_key <$> df_rows existing)
             (keep_first_from [] (df_rows new)).
Proof.
  intros Hne Hcols Hnd. eexists. split; [by apply merge_frames_nonempty|].
  cbn [df_rows]. rewrite keep_first_from_nil_app. f_equal.
  apply keep_first_from_id; [done|]. intros ? _. apply not_elem_of_nil.
Qed.

Lemma merge_extends_existing_witness :
  ∃ merged,
    merge_frames (Frame subset [loaded_villa])
      (Frame subset [scraped sample_flat; scraped sample_villa; scraped sample_flat])
    = Ok merged
    ∧ df_rows merged
      = [loaded_villa]
        ++ filter (λ r, cells_key r ∉ cells_key <$> [loaded_villa])
             (keep_first_from []
                [scraped sample_flat; scraped sample_villa; scraped sample_flat]).
Proof.
  apply (merge_extends_existing (Frame subset [loaded_villa])
           (Frame subset [scraped sample_flat; scraped sample_villa;
                          scraped sample_flat])).
  - done.
  - done.
  - apply NoDup_singleton.
Defined.

(** X15. Merging the same batch again changes nothing: when a merge into a
    non-empty dataset of listings returns, merging that batch into its
    result returns the result. *)
Theorem merge_same_batch_again (existing new merged : list row) :
  existing ≠ [] →
  Forall is_listing existing →
  merge existing new = Ok merged →
  merge merged new = Ok merged.
Proof.
  intros Hne Hl Hmerge. rewrite merge_nonempty in Hmerge by done.
  injection Hmerge as <-.
  destruct existing as [|r existing]; [done|].
  apply Forall_cons in Hl as [Hr _].
  rewrite (merge_with_listing _ _ r); [by rewrite keep_first_absorbs| |done].
  unfold keep_first. cbn. rewrite decide_False by apply not_elem_of_nil. by left.
Qed.

Lemma merge_same_batch_again_witness :
  merge [sample_villa; sample_flat] [sample_flat; sample_villa]
  = Ok [sample_villa; sample_flat].
Proof.
  apply (merge_same_batch_again [sample_villa] [sample_flat; sample_villa]).
  - done.
  - apply Forall_singleton, listing_dom.
  - by vm_compute.
Defined.

(** X16. Whatever a merge returns is made of rows of the existing dataset
    and of the new batch in their original order, existing rows first; so
    it is no longer than both together, and it holds only listings when
    both do. *)
Theorem merge_result_from_inputs (existing new merged : list row) :
  merge existing new = Ok merged →
  merged `sublist_of` existing ++ new
  ∧ (length merged ≤ length existing + length new)%nat
  ∧ (Forall is_listing (existing ++ new) → Forall is_listing merged).
Proof.
  intros Hmerge.
  assert (merged `sublist_of` existing ++ new) as Hsub.
  { apply merge_returns in Hmerge as [[_ ->]|[_ ->]].
    - apply drop_duplicates_from_sublist.
    - by apply sublist_inserts_l. }
  split; [done|]. split.
  - apply sublist_length in Hsub. by rewrite length_app in Hsub.
  - rewrite !Forall_forall. intros Hall r Hr. apply Hall.
    by apply (elem_of_sublist merged).
Qed.

Lemma merge_result_from_inputs_witness :
  [sample_villa; sample_flat]
    `sublist_of` [sample_villa] ++ [sample_flat; sample_villa].
Proof.
  apply (merge_result_from_inputs [sample_villa] [sample_flat; sample_villa]).
  by vm_compute.
Defined.

(** ** The second pass and the incremental cell *)

Section SecondPass.

Lemma apply_cells_returns f (df df' : list row) :
  apply_cells f df = Ok df' →
  Forall2 (λ r r', ∃ x, r !! "location" = Some x ∧ r' = <["location" := f x]> r)
    df df'.
Proof.
  revert df'. induction df as [|r df IH]; intros df'; cbn.
  - intros [= <-]. constructor.
  - destruct (r !! "location") as [x|] eqn:Hx; [|done].
    destruct (apply_cells f df) as [df''|e]; [|done].
    intros [= <-]. constructor; [by exists x|by apply IH].
Qed.

Lemma apply_location_returns f (df df' : list row) :
  apply_location f df = Ok df' →
  df ≠ [] ∧ apply_cells f df = Ok df'.
Proof.
  unfold apply_location. case_bool_decide as Hcol; [|done].
  intros Hrun. split; [|done]. intros ->.
  apply elem_of_columns in Hcol as (r & Hr & _). by apply elem_of_nil in Hr.
Qed.

Lemma apply_location_no_rows f : apply_location f [] = Raise (KeyError "location").
Proof. reflexivity. Qed.

Lemma located_listing_fixed data :
  located_listing data →
  ∃ loc, data !! "location" = Some loc ∧ normalize_location loc = loc.
Proof.
  intros (_ & loc & Hloc & _ & Ha). exists loc. split; [done|].
  by apply normalize_location_fixed.
Qed.

End SecondPass.

(** X17. When the second pass returns, the frame has the same rows in the
    same order, each with its location replaced by the normalised one and
    every other cell untouched; every location then contains "Alexandria",
    and running the pass again changes nothing. *)
Theorem second_pass_normalizes_every_location (df df' : list row) :
  apply_location normalize_location df = Ok df' →
  Forall2 (λ r r', ∃ x, r !! "location" = Some x
                        ∧ r' = <["location" := normalize_location x]> r
                        ∧ Py.contains "Alexandria" (normalize_location x) = true)
    df df'
  ∧ apply_location normalize_location df' = Ok df'.
Proof.
  intros [Hne Hcells%apply_cells_returns]%apply_location_returns. split.
  - eapply Forall2_impl; [exact Hcells|].
    intros r r' (x & Hx & ->). exists x. split; [done|]. split; [done|].
    apply normalize_location_has_area.
  - apply apply_location_fixed.
    + intros ->. apply Forall2_nil_inv_r in Hcells. done.
    + intros data Hdata.
      apply list_elem_of_lookup in Hdata as [i Hi].
      destruct (Forall2_lookup_r _ _ _ _ _ Hcells Hi) as (r & _ & x & _ & ->).
      exists (normalize_location x). split; [by rewrite lookup_insert_eq|].
      apply normalize_location_fixed, normalize_location_has_area.
Qed.

Lemma second_pass_normalizes_every_location_witness :
  apply_location normalize_location
    [<["location" := "Smouha, Alexandria"]> (listing "1" "2" "3" "4" "Smouha")]
  = Ok [<["location" := "Smouha, Alexandria"]> (listing "1" "2" "3" "4" "Smouha")].
Proof.
  apply (second_pass_normalizes_every_location [listing "1" "2" "3" "4" "Smouha"]).
  by vm_compute.
Defined.

(** X18. The incremental cell on degenerate runs: with no site configured it
    ends with the [ValueError] of [pd.concat] before any request; and when
    the sites are scraped but no record is accepted anywhere, it ends with
    [KeyError] for ["location"], whatever the existing dataset: nothing is
    merged or written. *)
Theorem incremental_update_without_new_records
    (web : string → option BS4.node) (existing : list row)
    (websites : list (string * Config)) (tr tr' : list event)
    (all_data : list (list row)) :
  incremental_update web existing [] tr = (AbortedValueError, tr) ∧
  (websites ≠ [] →
   scrape_all web websites [] tr = (Ok all_data, tr') →
   pd_concat all_data = [] →
   incremental_update web existing websites tr = (Aborted (KeyError "location"), tr')).
Proof.
  split; [done|]. intros Hne Hrun Hnone.
  unfold incremental_update. rewrite Hrun.
  destruct all_data as [|data all_data].
  - apply scrape_all_returns in Hrun as (frames & Hf & Hlen & _).
    cbn in Hf. subst frames. destruct websites; done.
  - by rewrite Hnone.
Qed.

Lemma incremental_update_without_new_records_witness :
  (incremental_update sample_web [sample_villa]
     [("site", sample_config_no_neighborhoods)] []).1
  = Aborted (KeyError "location").
Proof.
  destruct (scrape_all sample_web [("site", sample_config_no_neighborhoods)] [] [])
    as [[all_data|e] tr'] eqn:Hrun; [|by vm_compute in Hrun].
  rewrite (proj2 (incremental_update_without_new_records sample_web [sample_villa]
                    [("site", sample_config_no_neighborhoods)] [] tr' all_data));
    [done|done|done|].
  vm_compute in Hrun. by injection Hrun as <- <-.
Defined.

(** X19. When the sites are scraped and at least one record is accepted,
    the second pass changes nothing and the incremental cell ends as the
    merge of the existing dataset with the concatenated site batches does,
    with no request beyond those of the scraping. *)
Theorem incremental_update_merges_site_batches
    (web : string → option BS4.node) (existing : list row)
    (websites : list (string * Config)) (tr tr' : list event)
    (all_data : list (list row)) :
  scrape_all web websites [] tr = (Ok all_data, tr') →
  pd_concat all_data ≠ [] →
  incremental_update web existing websites tr
  = (match merge existing (pd_concat all_data) with
     | Ok combined => Completed combined
     | Raise e => Aborted e
     end, tr').
Proof.
  intros Hrun Hsome. unfold incremental_update. rewrite Hrun.
  destruct all_data as [|data all_data]; [done|].
  apply scrape_all_returns in Hrun as (frames & Hf & _ & Hall).
  cbn [app] in Hf. subst frames. apply Forall_concat in Hall.
  rewrite apply_location_fixed; [|done|].
  - by destruct (merge existing _).
  - intros r Hr. apply located_listing_fixed.
    by apply (proj1 (Forall_forall _ _) Hall).
Qed.

Lemma incremental_update_merges_site_batches_witness :
  (incremental_update sample_web [sample_flat] sample_websites []).1
  = Completed [sample_flat; sample_villa].
Proof.
  destruct (scrape_all sample_web sample_websites [] [])
    as [[all_data|e] tr'] eqn:Hrun; [|by vm_compute in Hrun].
  assert (all_data = [[sample_villa]]) as ->
    by (vm_compute in Hrun; by injection Hrun as <- <-).
  rewrite (incremental_update_merges_site_batches sample_web [sample_flat]
             sample_websites [] tr' [[sample_villa]] Hrun); [|done].
  by vm_compute.
Defined.

(** ** The cleanup cell *)

Section Cleanup.

Implicit Types (r : row) (df seen : list row).

Lemma select_rows_partition seen df :
  (length (select_rows df (duplicated_from seen df))
   + length (select_rows df (negb <$> duplicated_from seen df)))%nat
  = length df.
Proof.
  revert seen. induction df as [|r df IH]; intros seen; [done|].
  cbn. case_decide; cbn; [rewrite <-(IH seen)|rewrite <-(IH (r :: seen))]; lia.
Qed.

Lemma elem_of_kept seen df r :
  r ∈ select_rows df (negb <$> duplicated_from seen df) ↔ r ∈ df ∧ r ∉ seen.
Proof.
  revert seen. induction df as [|r0 df IH]; intros seen; cbn.
  - rewrite elem_of_nil. tauto.
  - case_decide as Hseen; cbn; rewrite ?elem_of_cons, IH, ?not_elem_of_cons.
    + split; [tauto|]. intros [[->|?] ?]; tauto.
    + destruct (decide (r = r0)) as [->|?]; tauto.
Qed.

Lemma kept_NoDup seen df :
  NoDup (select_rows df (negb <$> duplicated_from seen df)).
Proof.
  revert seen. induction df as [|r0 df IH]; intros seen; cbn; [constructor|].
  case_decide; cbn; [apply IH|].
  constructor; [|apply IH].
  rewrite elem_of_kept, not_elem_of_cons. tauto.
Qed.

Lemma kept_sublist seen df :
  select_rows df (negb <$> duplicated_from seen df) `sublist_of` df.
Proof.
  revert seen. induction df as [|r0 df IH]; intros seen; cbn; [constructor|].
  case_decide; cbn; [apply sublist_cons|apply sublist_skip]; apply IH.
Qed.

Lemma elem_of_marked seen df r :
  r ∈ select_rows df (duplicated_from seen df) →
  r ∈ seen ∨ r ∈ select_rows df (negb <$> duplicated_from seen df).
Proof.
  revert seen. induction df as [|r0 df IH]; intros seen; cbn;
    [by intros ?%elem_of_nil|].
  case_decide as Hseen; cbn.
  - intros [->|Hr]%elem_of_cons; [by left|by apply IH].
  - intros [[->|?]%elem_of_cons|?]%IH; [right; by left|by left|right; by right].
Qed.

(** Rows that are pairwise different and not met before are all kept. *)
Lemma duplicated_from_NoDup seen df :
  NoDup df → (∀ r, r ∈ df → r ∉ seen) →
  select_rows df (duplicated_from seen df) = []
  ∧ select_rows df (negb <$> duplicated_from seen df) = df.
Proof.
  intros Hnd. revert seen. induction Hnd as [|r df Hr Hnd IH]; intros seen Hseen;
    [done|].
  cbn. rewrite decide_False by (apply Hseen; by left). cbn.
  destruct (IH (r :: seen)) as [-> ->]; [|done].
  intros r' Hr' [->|?]%elem_of_cons; [done|].
  by apply (Hseen r'); [right|].
Qed.

(** A row at the end is kept when it was not met, and marked otherwise. *)
Lemma kept_snoc seen df r :
  select_rows (df ++ [r]) (negb <$> duplicated_from seen (df ++ [r]))
  = select_rows df (negb <$> duplicated_from seen df)
    ++ (if decide (r ∈ seen ∨ r ∈ df) then [] else [r]).
Proof.
  revert seen. induction df as [|r0 df IH]; intros seen; cbn.
  - destruct (decide (r ∈ seen)) as [Hr|Hr]; cbn.
    + rewrite decide_True by (by left). done.
    + rewrite decide_False; [done|]. rewrite elem_of_nil. tauto.
  - destruct (decide (r0 ∈ seen)) as [Hr0|Hr0]; cbn; rewrite IH.
    + f_equal. apply decide_ext. rewrite elem_of_cons.
      split; [tauto|]. intros [?|[->|?]]; tauto.
    + f_equal. f_equal. apply decide_ext. rewrite !elem_of_cons. tauto.
Qed.

Lemma marked_snoc seen df r :
  select_rows (df ++ [r]) (duplicated_from seen (df ++ [r]))
  = select_rows df (duplicated_from seen df)
    ++ (if decide (r ∈ seen ∨ r ∈ df) then [r] else []).
Proof.
  revert seen. induction df as [|r0 df IH]; intros seen; cbn.
  - destruct (decide (r ∈ seen)) as [Hr|Hr]; cbn.
    + rewrite decide_True by (by left). done.
    + rewrite decide_False; [done|]. rewrite elem_of_nil. tauto.
  - destruct (decide (r0 ∈ seen)) as [Hr0|Hr0]; cbn; rewrite IH.
    + f_equal. f_equal. apply decide_ext. rewrite elem_of_cons.
      split; [tauto|]. intros [?|[->|?]]; tauto.
    + f_equal. apply decide_ext. rewrite !elem_of_cons. tauto.
Qed.

Lemma subset_key_listing_inj r1 r2 :
  is_listing r1 → is_listing r2 → subset_key r1 = subset_key r2 → r1 = r2.
Proof.
  unfold is_listing, subset_key, subset. intros H1 H2 Hk.
  cbn in Hk. injection Hk as Hp Ha Hbd Hbt Hloc.
  apply map_eq. intros c.
  destruct (decide (c ∈ ({["price"; "area"; "bedrooms"; "bathrooms"; "location"]}
                          : gset string))) as [Hc|Hc].
  - repeat (apply elem_of_union in Hc as [Hc|Hc]);
      apply elem_of_singleton in Hc as ->; done.
  - assert (r1 !! c = None) as -> by (apply not_elem_of_dom; by rewrite H1).
    symmetry. apply not_elem_of_dom. by rewrite H2.
Qed.

(** Dropping by key drops at least what dropping by whole row drops. *)
Lemma drop_duplicates_from_sublist_kept keys seen df :
  (∀ r, r ∈ seen → subset_key r ∈ keys) →
  drop_duplicates_from keys df
    `sublist_of` select_rows df (negb <$> duplicated_from seen df).
Proof.
  revert keys seen. induction df as [|r0 df IH]; intros keys seen Hseen; cbn;
    [constructor|].
  destruct (decide (r0 ∈ seen)) as [Hr|Hr]; cbn.
  - rewrite decide_True by (by apply Hseen). by apply IH.
  - assert (∀ r, r ∈ r0 :: seen → subset_key r ∈ subset_key r0 :: keys) as Hseen'.
    { intros r [->|?]%elem_of_cons; [by left|right; by apply Hseen]. }
    case_decide.
    + apply sublist_cons. apply IH.
      intros r [->|?]%elem_of_cons; [done|by apply Hseen].
    + apply sublist_skip. by apply IH.
Qed.

(** On listings a row was met exactly when its key was. *)
Lemma drop_duplicates_from_kept keys seen df :
  Forall is_listing seen → Forall is_listing df →
  keys = subset_key <$> seen →
  drop_duplicates_from keys df
  = select_rows df (negb <$> duplicated_from seen df).
Proof.
  intros Hseen Hdf. revert keys seen Hseen.
  induction Hdf as [|r0 df Hr0 _ IH]; intros keys seen Hseen ->; [done|].
  cbn.
  assert (subset_key r0 ∈ subset_key <$> seen ↔ r0 ∈ seen) as Hiff.
  { rewrite list_elem_of_fmap. split.
    - intros (r & Hk & Hr).
      assert (r0 = r) as ->; [|done].
      apply subset_key_listing_inj; [done| |done].
      by apply (proj1 (Forall_forall _ _) Hseen).
    - intros ?. by exists r0. }
  destruct (decide (r0 ∈ seen)) as [Hr|Hr]; cbn.
  - rewrite decide_True by (by apply Hiff). by apply IH.
  - rewrite decide_False by (by rewrite Hiff). f_equal.
    apply (IH _ (r0 :: seen)); [by apply Forall_cons_2|done].
Qed.

End Cleanup.

(** X20. The cleanup cell splits the frame: the duplicate rows it reports
    and the rows it keeps add up to the frame; the cleaned frame has no two
    equal rows, holds exactly the rows of the frame, and contains an equal
    of every row reported. Each row is kept at its first occurrence and
    reported at every later one: a row appended to the frame is appended to
    the cleaned frame when no equal row is in the frame, and to the reported
    duplicates otherwise. *)
Theorem cleanup_keeps_one_of_each_row (df : list row) (r : row) :
  (remove_duplicates_cell df).1.1 = length (remove_duplicates_cell df).1.2
  ∧ ((remove_duplicates_cell df).1.1 + length (remove_duplicates_cell df).2)%nat
    = length df
  ∧ NoDup (remove_duplicates_cell df).2
  ∧ (∀ r, r ∈ (remove_duplicates_cell df).2 ↔ r ∈ df)
  ∧ (remove_duplicates_cell df).2 `sublist_of` df
  ∧ (∀ r, r ∈ (remove_duplicates_cell df).1.2 → r ∈ (remove_duplicates_cell df).2)
  ∧ remove_duplicates_cell [] = (0%nat, [], [])
  ∧ (remove_duplicates_cell (df ++ [r])).2
    = (remove_duplicates_cell df).2 ++ (if decide (r ∈ df) then [] else [r])
  ∧ (remove_duplicates_cell (df ++ [r])).1.2
    = (remove_duplicates_cell df).1.2 ++ (if decide (r ∈ df) then [r] else []).
Proof.
  unfold remove_duplicates_cell, drop_duplicate_rows, duplicated. cbn [fst snd].
  split; [done|]. split; [apply select_rows_partition|].
  split; [apply kept_NoDup|]. split.
  { intros r'. rewrite elem_of_kept. split; [tauto|].
    intros ?. split; [done|apply not_elem_of_nil]. }
  split; [apply kept_sublist|]. split.
  { intros r' [[]%elem_of_nil|?]%elem_of_marked. done. }
  split; [done|]. split.
  - rewrite kept_snoc. f_equal. apply decide_ext.
    rewrite elem_of_nil. tauto.
  - rewrite marked_snoc. f_equal. apply decide_ext.
    rewrite elem_of_nil. tauto.
Qed.

Lemma cleanup_keeps_one_of_each_row_witness :
  ((remove_duplicates_cell [sample_villa; sample_flat; sample_villa]).1.1
   + length (remove_duplicates_cell [sample_villa; sample_flat; sample_villa]).2)%nat
  = length [sample_villa; sample_flat; sample_villa]
  ∧ NoDup (remove_duplicates_cell [sample_villa; sample_flat; sample_villa]).2.
Proof.
  destruct (cleanup_keeps_one_of_each_row [sample_villa; sample_flat; sample_villa]
              sample_villa)
    as (_ & Hsum & Hnd & _).
  by split.
Defined.

(** X21. Running the cleanup cell on its own output reports no duplicate
    and returns the frame as it is. *)
Theorem cleanup_is_idempotent (df : list row) :
  remove_duplicates_cell (remove_duplicates_cell df).2
  = (0%nat, [], (remove_duplicates_cell df).2).
Proof.
  unfold remove_duplicates_cell at 1. unfold drop_duplicate_rows at 1, duplicated.
  destruct (duplicated_from_NoDup [] (remove_duplicates_cell df).2) as [-> ->];
    [apply kept_NoDup|intros ? _; apply not_elem_of_nil|done].
Qed.

(** X23. The two notions of duplicate: what [drop_duplicates] by the five
    key columns keeps is always among what the whole-row [drop_duplicates]
    of the cleanup cell keeps, in the same order; and on a frame of listings
    the two keep exactly the same rows. *)
Theorem row_and_key_duplicates (df : list row) :
  keep_first df `sublist_of` drop_duplicate_rows df
  ∧ (Forall is_listing df → drop_duplicate_rows df = keep_first df).
Proof.
  unfold keep_first, drop_duplicate_rows, duplicated. split.
  - apply drop_duplicates_from_sublist_kept. by intros r ?%elem_of_nil.
  - intros Hl. symmetry. by apply drop_duplicates_from_kept.
Qed.

Lemma row_and_key_duplicates_witness :
  Forall is_listing [sample_villa; sample_flat; sample_villa]
  ∧ drop_duplicate_rows [sample_villa; sample_flat; sample_villa]
    = keep_first [sample_villa; sample_flat; sample_villa].
Proof.
  assert (Forall is_listing [sample_villa; sample_flat; sample_villa]) as Hl.
  { repeat apply Forall_cons_2; [apply listing_dom..|apply Forall_nil_2]. }
  split; [done|].
  by apply (row_and_key_duplicates [sample_villa; sample_flat; sample_villa]).
Defined.
